(** * Verification of [@marionebl/option]

    A shallow embedding of [src/option.ts] (class [Option]) and the
    properties of its combinators.

    An [Option] object is a mutable cell with one private field, [payload];
    the value [undefined] in that field is what makes the object a [None].
    Objects live in a heap and are handled through references, so that the
    methods returning [this] or [b] alias their operands and the methods
    assigning [this.payload] are seen through every reference.

    The interfaces [Some<Payload>] and [None] of the source are static views
    of this one class and have no counterpart here; neither have the type
    parameters.  Callbacks are computations of the same monad as the method
    bodies: they may throw, allocate and assign. *)

From stdpp Require Import gmap strings.
From Stdlib Require Import ZArith.

Local Open Scope string_scope.
Local Open Scope Z_scope.

(** ** Values *)

(** A reference to an [Option] object. *)
Abbreviation loc := positive.

(** [new Error(message)]. *)
Inductive JsError : Type :=
  | Error (message : string).

Definition message (e : JsError) : string :=
  match e with Error m => m end.

(** The two variants of the collaborating [Result] class; [code] is the
    optional second argument of [Result.Err], [None] when it was not
    passed. *)
Inductive Result (V : Type) : Type :=
  | ROk (payload : V)
  | RErr (err : JsError) (code : option V).

Arguments ROk {V} payload.
Arguments RErr {V} err code.

(** The JavaScript values a payload slot can hold.  Numbers are restricted
    to integers; the class itself never computes with them. *)
#[warnings="-register-all"]
Inductive value : Type :=
  | VUndefined
  | VNull
  | VBool (b : bool)
  | VNumber (n : Z)
  | VString (s : string)
  | VResult (r : Result value)
  | VOption (this : loc).

(** The [typeof] operator. *)
Definition typeof (v : value) : string :=
  match v with
  | VUndefined => "undefined"
  | VNull => "object"
  | VBool _ => "boolean"
  | VNumber _ => "number"
  | VString _ => "string"
  | VResult _ => "object"
  | VOption _ => "object"
  end.

(** ** Program state and the monad of method bodies *)

(** [heap] maps every allocated [Option] object to the content of its
    [payload] field.  [calls] is the record kept by instrumented callbacks
    (a spy's name and the argument it was called with, oldest first). *)
Record State : Type := mkState {
  heap : gmap loc value;
  calls : list (string * value)
}.

Definition empty_State : State := mkState ∅ [].

(** How a method body ends: it returns, it throws, or the model has left
    the behaviour it describes ([Wrong]: a reference to no object, a
    collaborator used outside its contract). *)
Inductive completion (A : Type) : Type :=
  | Normal (a : A)
  | Throw (e : JsError)
  | Wrong.

Arguments Normal {A} a.
Arguments Throw {A} e.
Arguments Wrong {A}.

Definition M (A : Type) : Type := State → completion A * State.

Definition ret {A} (a : A) : M A := λ σ, (Normal a, σ).

Definition bind {A B} (c : M A) (k : A → M B) : M B :=
  λ σ, match c σ with
       | (Normal a, σ') => k a σ'
       | (Throw e, σ') => (Throw e, σ')
       | (Wrong, σ') => (Wrong, σ')
       end.

Definition throw {A} (e : JsError) : M A := λ σ, (Throw e, σ).

Definition wrong {A} : M A := λ σ, (Wrong, σ).

Declare Scope js_scope.
Delimit Scope js_scope with js.
Notation "x <- c ;; k" := (bind c (λ x, k))
  (at level 100, c at next level, k at level 200, right associativity)
  : js_scope.
Notation "c ;; k" := (bind c (λ _, k))
  (at level 100, k at level 200, right associativity) : js_scope.
Local Open Scope js_scope.

(** [this.payload] *)
Definition read (this : loc) : M value :=
  λ σ, match heap σ !! this with
       | Some payload => (Normal payload, σ)
       | None => (Wrong, σ)
       end.

(** [this.payload = payload] *)
Definition write (this : loc) (payload : value) : M unit :=
  λ σ, match heap σ !! this with
       | Some _ => (Normal tt, mkState (<[this := payload]> (heap σ)) (calls σ))
       | None => (Wrong, σ)
       end.

(** The reference [new] hands out in state [σ]. *)
Definition next_loc (σ : State) : loc := fresh (dom (heap σ)).

(** Allocation of a new object whose field holds [payload]. *)
Definition alloc (payload : value) : M loc :=
  λ σ, (Normal (next_loc σ),
        mkState (<[next_loc σ := payload]> (heap σ)) (calls σ)).

(** A callback under call-count instrumentation: every invocation is
    recorded with its argument before the callback runs. *)
Definition spy {A} (name : string) (fn : value → M A) : value → M A :=
  λ v σ, fn v (mkState (heap σ) (calls σ ++ [(name, v)])).

(** [a && b] on method calls: [b] is evaluated only when [a] is true. *)
Definition and_lazy (a b : M bool) : M bool :=
  x <- a;; if x then b else ret false.

(** [a || b] on method calls: [b] is evaluated only when [a] is false. *)
Definition or_lazy (a b : M bool) : M bool :=
  x <- a;; if x then ret true else b.

(** ** The [Result] collaborator ([@marionebl/result]) *)

Module Result.

(** Modelled from the spec: [Result.Ok(value)] of the imported package
    [@marionebl/result], the success outcome wrapping [value]. *)
Definition Ok (payload : value) : Result value := ROk payload.

(** Modelled from the spec: [Result.Err(message, code?)] of the imported
    package, the failure outcome constructed from a message and an
    optional code. *)
Definition Err (msg : string) (code : option value) : Result value :=
  RErr (Error msg) code.

(** Modelled from the spec: the asynchronous query [isOk()] of the
    imported package, awaited. *)
Definition isOk (r : Result value) : M bool :=
  match r with ROk _ => ret true | RErr _ _ => ret false end.

(** Modelled from the spec: the asynchronous query [isErr()] of the
    imported package, awaited. *)
Definition isErr (r : Result value) : M bool :=
  match r with ROk _ => ret false | RErr _ _ => ret true end.

(** Modelled from the spec: the asynchronous [unwrap()] of the imported
    package, awaited; the spec gives it no meaning on a failure. *)
Definition unwrap (r : Result value) : M value :=
  match r with ROk payload => ret payload | RErr _ _ => wrong end.

(** Modelled from the spec: the asynchronous [unwrapErr()] of the
    imported package, awaited; the spec gives it no meaning on a
    success. *)
Definition unwrapErr (r : Result value) : M JsError :=
  match r with ROk _ => wrong | RErr err _ => ret err end.

End Result.

(** What the callback of [okOrElse] returns: a bare message or the pair
    [[message, code]]. *)
Inductive ErrArgs : Type :=
  | Bare (msg : string)
  | Pair (msg : string) (code : value).

(** ** Suspension and method calls on a payload *)

(** The [TypeError] of a call [x.m()] on a value [x] that has no method
    [m], as [undefined.isErr()].  The engine writes its message; here it is
    the name of the method, and no statement depends on it. *)
Definition TypeError (method : string) : JsError := Error method.

(** [x instanceof Result] *)
Definition instanceof_Result (x : value) : bool :=
  match x with VResult _ => true | _ => false end.

(** [x.m()] for a method [m] of [Result]: the call when [x] is an instance
    of [Result], a [TypeError] otherwise. *)
Definition call_Result {A} (method : string) (m : Result value → M A)
    (x : value) : M A :=
  match x with
  | VResult r => m r
  | _ => throw (TypeError method)
  end.

(** [await c] in an [async] function: [c] is evaluated, the function is
    suspended, and the rest of the program runs before it is resumed with
    the value of [c].  [pending] is what the rest of the program does to the
    state in that time.  If [c] throws, the function is not suspended. *)
Definition await {A} (pending : State → State) (c : M A) : M A :=
  a <- c;;
  λ σ, (Normal a, pending σ).

(** ** Class [Option] *)

Module Option.

(** [private constructor({ payload }) { this.payload = payload; }] *)
Definition new (payload : value) : M loc := alloc payload.

(** [static from(payload?)]; an omitted argument is [undefined]. *)
Definition from (payload : value) : M loc := new payload.

(** [static Some(payload)] *)
Definition Some (payload : value) : M loc := new payload.

(** [static None()] *)
Definition None : M loc := new VUndefined.

Definition isSome (this : loc) : M bool :=
  payload <- read this;;
  ret (negb (typeof payload =? "undefined")%string).

Definition isNone (this : loc) : M bool :=
  payload <- read this;;
  ret (typeof payload =? "undefined")%string.

Definition expect (this : loc) (msg : string) : M value :=
  payload <- read this;;
  if (typeof payload =? "undefined")%string then throw (Error msg)
  else ret payload.

Definition unwrap (this : loc) : M value :=
  payload <- read this;;
  if (typeof payload =? "undefined")%string
  then throw (Error "unwrap: Expected Some(), was None()")
  else ret payload.

Definition unwrapOr (this : loc) (fallback : value) : M value :=
  payload <- read this;;
  if (typeof payload =? "undefined")%string then ret fallback
  else ret payload.

Definition unwrapOrElse (this : loc) (fn : M value) : M value :=
  payload <- read this;;
  if (typeof payload =? "undefined")%string then fn
  else ret payload.

Definition map (this : loc) (fn : value → M value) : M loc :=
  payload <- read this;;
  if (typeof payload =? "undefined")%string then ret this
  else
    r <- fn payload;;
    from r.

Definition mapOr (this : loc) (fallback : value) (fn : value → M value)
  : M value :=
  payload <- read this;;
  if negb (typeof payload =? "undefined")%string then fn payload
  else ret fallback.

Definition mapOrElse (this : loc) (fallback : M value)
    (fn : value → M value) : M value :=
  payload <- read this;;
  if negb (typeof payload =? "undefined")%string then fn payload
  else fallback.

Definition okOr (this : loc) (msg : string) (c : option value)
  : M (Result value) :=
  payload <- read this;;
  if negb (typeof payload =? "undefined")%string
  then ret (Result.Ok payload)
  else ret (Result.Err msg Datatypes.None).

Definition okOrElse (this : loc) (fn : M ErrArgs) : M (Result value) :=
  payload <- read this;;
  if negb (typeof payload =? "undefined")%string
  then ret (Result.Ok payload)
  else
    args <- fn;;
    match args with
    | Pair msg code => ret (Result.Err msg (Datatypes.Some code))
    | Bare msg => ret (Result.Err msg Datatypes.None)
    end.

Definition and (this b : loc) : M loc :=
  c <- or_lazy (isNone this) (isNone b);;
  if c then None else ret b.

Definition andThen (this : loc) (fn : value → M loc) : M loc :=
  n <- isNone this;;
  if n then ret this
  else
    payload <- read this;;
    fn payload.

(** The payload is read again after the predicate has run. *)
Definition filter (this : loc) (fn : value → M bool) : M loc :=
  n <- isNone this;;
  if n then ret this
  else
    payload <- read this;;
    keep <- fn payload;;
    if keep then
      payload' <- read this;;
      Some payload'
    else None.

Definition or (this b : loc) : M loc :=
  s <- isSome this;;
  if s then ret this else ret b.

Definition orElse (this : loc) (fn : M loc) : M loc :=
  s <- isSome this;;
  if s then ret this else fn.

Definition xor (this b : loc) : M loc :=
  c1 <- and_lazy (isSome this) (isNone b);;
  if c1 then ret this
  else
    c2 <- and_lazy (isNone this) (isSome b);;
    if c2 then ret b
    else None.

Definition getOrInsert (this : loc) (payload : value) : M loc :=
  s <- isSome this;;
  if s then ret this
  else
    write this payload;;
    ret this.

Definition getOrInsertWith (this : loc) (fn : M value) : M loc :=
  s <- isSome this;;
  if s then ret this
  else
    payload <- fn;;
    write this payload;;
    ret this.

Definition take (this : loc) : M loc :=
  payload <- read this;;
  write this VUndefined;;
  from payload.

Definition replace (this : loc) (payload : value) : M loc :=
  old <- read this;;
  write this payload;;
  from old.

(** [async transpose()]: the promise it returns is represented by the
    completion of its body ([Normal]: resolved, [Throw]: rejected).
    [this.payload] is read at each of its five uses, and at each [await]
    the rest of the program runs ([pending]) before the body goes on. *)
Definition transpose (pending : State → State) (this : loc)
  : M (Result value) :=
  payload <- read this;;
  if instanceof_Result payload then
    e <- await pending
           (payload <- read this;; call_Result "isErr" Result.isErr payload);;
    if e then
      err <- await pending
               (payload <- read this;;
                call_Result "unwrapErr" Result.unwrapErr payload);;
      ret (Result.Err (message err) Datatypes.None)
    else
      o <- await pending
             (payload <- read this;; call_Result "isOk" Result.isOk payload);;
      if o then
        v <- await pending
               (payload <- read this;;
                call_Result "unwrap" Result.unwrap payload);;
        x <- from v;;
        ret (Result.Ok (VOption x))
      else
        x <- None;;
        ret (Result.Ok (VOption x))
  else
    x <- None;;
    ret (Result.Ok (VOption x)).

End Option.

(** ** Observable states of a container *)

(** The container [o] of state [σ] is a [Some(p)]: its slot holds [p], and
    [p] is not the absent marker. *)
Definition holds_Some (σ : State) (o : loc) (p : value) : Prop :=
  heap σ !! o = Some p ∧ p ≠ VUndefined.

(** The container [o] of state [σ] is a [None]: its slot holds the absent
    marker. *)
Definition holds_None (σ : State) (o : loc) : Prop :=
  heap σ !! o = Some VUndefined.

(** The rest of the program does not assign the payload of [this]. *)
Definition leaves_alone (pending : State → State) (this : loc) : Prop :=
  ∀ σ p, heap σ !! this = Some p → heap (pending σ) !! this = Some p.

(** ** Programs used in the statements *)

(** [o.andThen(f1).andThen(f2)...] for the step functions of [fns]. *)
Fixpoint andThen_chain (o : loc) (fns : list (value → M loc)) : M loc :=
  match fns with
  | [] => ret o
  | fn :: rest =>
      r <- Option.andThen o fn;;
      andThen_chain r rest
  end.

(** [const square = (input: number) => Option.Some(input * input)], from the
    documentation of [andThen]; only numbers are in its domain. *)
Definition square (input : value) : M loc :=
  match input with
  | VNumber n => Option.Some (VNumber (n * n))
  | _ => wrong
  end.

(** [const nope = (_: unknown) => Option.None()], from the same place. *)
Definition nope (_ : value) : M loc := Option.None.

(** [Some(2).andThen(square).andThen(square)] *)
Definition square_twice : M loc :=
  o <- Option.Some (VNumber 2);;
  a <- Option.andThen o square;;
  Option.andThen a square.

(** The state after [Option.Some(1)] in the empty state; the container is
    at reference [1], the first one handed out. *)
Definition st_some1 : State := (Option.Some (VNumber 1) empty_State).2.

(** The state after [Option.None()]; the container is at reference [1]. *)
Definition st_none : State := (Option.None empty_State).2.

(** The state after [Option.Some(1)] and then [Option.None()]: [Some(1)] at
    reference [1] and [None()] at reference [2]. *)
Definition st_some_none : State := (Option.None st_some1).2.

(** The state after [Option.Some(Result.Ok(1))]; the container is at
    reference [1]. *)
Definition st_some_ok : State :=
  (Option.Some (VResult (Result.Ok (VNumber 1))) empty_State).2.

(** The state after [Option.Some(Result.Err("boom"))]; the container is at
    reference [1]. *)
Definition st_some_err : State :=
  (Option.Some (VResult (Result.Err "boom" None)) empty_State).2.

(** The state after [Option.Some(Result.Ok(undefined))]; the container is
    at reference [1]. *)
Definition st_some_ok_undefined : State :=
  (Option.Some (VResult (Result.Ok VUndefined)) empty_State).2.

(** What a program that empties the container [this] does to the state. *)
Definition emptying (this : loc) : State → State :=
  λ σ, (Option.take this σ).2.

(** ** Relations between states *)

(** [σ'] keeps [σ]: every container of [σ] is in [σ'] with the payload it
    had, and the record of calls is the same.  New containers are
    allowed. *)
Definition keeps (σ σ' : State) : Prop :=
  (∀ o p, heap σ !! o = Some p → heap σ' !! o = Some p) ∧
  calls σ' = calls σ.

(** [c], run in [σ], returns normally and keeps [σ]. *)
Definition returns_keeping {A} (c : M A) (σ : State) : Prop :=
  ∃ a σ', c σ = (Normal a, σ') ∧ keeps σ σ'.

(** [σ'] keeps [σ] except for the payload of [this], which is still a
    container. *)
Definition keeps_but (this : loc) (σ σ' : State) : Prop :=
  (∀ o p, o ≠ this → heap σ !! o = Some p → heap σ' !! o = Some p) ∧
  (∃ p, heap σ' !! this = Some p) ∧
  calls σ' = calls σ.

(** A callback without effects: [(x) => f(x)] for a function [f] on
    values. *)
Definition pure_fn {A} (f : value → A) : value → M A := λ v, ret (f v).

(** ** The monad and the heap *)

Lemma typeof_undefined (v : value) :
  (typeof v =? "undefined")%string = true ↔ v = VUndefined.
Proof.
  split.
  - destruct v; simpl; intros H; first [reflexivity | discriminate H].
  - intros ->. reflexivity.
Qed.

Lemma typeof_defined (v : value) :
  v ≠ VUndefined → (typeof v =? "undefined")%string = false.
Proof.
  intros Hv. destruct (typeof v =? "undefined")%string eqn:E; [|reflexivity].
  apply typeof_undefined in E. contradiction.
Qed.

Lemma bind_Normal {A B} (c : M A) (k : A → M B) σ a σ' :
  c σ = (Normal a, σ') → (x <- c;; k x) σ = k a σ'.
Proof. intros H. unfold bind. rewrite H. reflexivity. Qed.

Lemma bind_ret {A B} (a : A) (k : A → M B) σ : (x <- ret a;; k x) σ = k a σ.
Proof. reflexivity. Qed.

(** [run_with eqn] runs the first statement of the body in the goal, where
    [eqn] says what that statement evaluates to. *)
Ltac run_with eqn := rewrite (bind_Normal _ _ _ _ _ eqn).

Lemma read_slot σ o p : heap σ !! o = Some p → read o σ = (Normal p, σ).
Proof. intros H. unfold read. rewrite H. reflexivity. Qed.

Lemma write_slot σ o old p :
  heap σ !! o = Some old →
  write o p σ = (Normal tt, mkState (<[o := p]> (heap σ)) (calls σ)).
Proof. intros H. unfold write. rewrite H. reflexivity. Qed.

Lemma next_loc_fresh σ : heap σ !! next_loc σ = None.
Proof. apply not_elem_of_dom. unfold next_loc. apply is_fresh. Qed.

Lemma next_loc_ne σ o p : heap σ !! o = Some p → o ≠ next_loc σ.
Proof. intros H ->. rewrite next_loc_fresh in H. discriminate. Qed.

(** What [new Option({ payload })] does to a state. *)
Lemma new_spec σ payload :
  ∃ o σ', Option.new payload σ = (Normal o, σ') ∧
    heap σ !! o = None ∧
    heap σ' = <[o := payload]> (heap σ) ∧
    calls σ' = calls σ.
Proof.
  eexists _, _. split; [reflexivity|]. simpl.
  split; [apply next_loc_fresh|]. split; reflexivity.
Qed.

(** The queries read the slot and nothing else. *)
Lemma isSome_slot σ o p :
  heap σ !! o = Some p →
  Option.isSome o σ = (Normal (negb (typeof p =? "undefined")%string), σ).
Proof.
  intros H. unfold Option.isSome.
  run_with (read_slot _ _ _ H). reflexivity.
Qed.

Lemma isNone_slot σ o p :
  heap σ !! o = Some p →
  Option.isNone o σ = (Normal (typeof p =? "undefined")%string, σ).
Proof.
  intros H. unfold Option.isNone.
  run_with (read_slot _ _ _ H). reflexivity.
Qed.

Lemma holds_Some_isSome σ o p :
  holds_Some σ o p → Option.isSome o σ = (Normal true, σ).
Proof.
  intros [H Hp]. rewrite (isSome_slot _ _ _ H), (typeof_defined _ Hp).
  reflexivity.
Qed.

Lemma holds_Some_isNone σ o p :
  holds_Some σ o p → Option.isNone o σ = (Normal false, σ).
Proof.
  intros [H Hp]. rewrite (isNone_slot _ _ _ H), (typeof_defined _ Hp).
  reflexivity.
Qed.

Lemma holds_None_isNone σ o : holds_None σ o → Option.isNone o σ = (Normal true, σ).
Proof. intros H. rewrite (isNone_slot _ _ _ H). reflexivity. Qed.

Lemma holds_None_isSome σ o : holds_None σ o → Option.isSome o σ = (Normal false, σ).
Proof. intros H. rewrite (isSome_slot _ _ _ H). reflexivity. Qed.

Lemma holds_Some_not_None σ o p : holds_Some σ o p → ¬ holds_None σ o.
Proof. intros [H Hp] H'. unfold holds_None in H'. congruence. Qed.

(** [clash] closes a goal whose context has one container in both
    states. *)
Ltac clash :=
  exfalso;
  match goal with
  | Hs : holds_Some ?σ ?o _, Hn : holds_None ?σ ?o |- _ =>
      exact (holds_Some_not_None _ _ _ Hs Hn)
  end.

(** Every allocated container is in exactly one of the two states. *)
Lemma container_cases σ o p :
  heap σ !! o = Some p → holds_Some σ o p ∨ (p = VUndefined ∧ holds_None σ o).
Proof.
  intros H. destruct (typeof p =? "undefined")%string eqn:E.
  - apply typeof_undefined in E. subst p. right. split; [reflexivity|exact H].
  - left. split; [exact H|]. intros ->. discriminate E.
Qed.

(** ** Queries and constructors *)

(** C9: for every option, [isNone()] returns exactly the negation of
    [isSome()].  The equation holds in every state and for every reference,
    hence in every state reached by the constructors and by the mutating
    operations; on a container that exists both queries return, with
    complementary booleans, and leave the state as it was. *)
Theorem isNone_negates_isSome (σ : State) (this : loc) :
  Option.isNone this σ = (b <- Option.isSome this;; ret (negb b)) σ ∧
  ∀ p, heap σ !! this = Some p →
       ∃ b, Option.isSome this σ = (Normal b, σ) ∧
            Option.isNone this σ = (Normal (negb b), σ).
Proof.
  split.
  - unfold Option.isNone, Option.isSome, bind, ret, read.
    destruct (heap σ !! this) as [p|]; [|reflexivity].
    rewrite negb_involutive. reflexivity.
  - intros p H. exists (negb (typeof p =? "undefined")%string).
    rewrite (isSome_slot _ _ _ H), (isNone_slot _ _ _ H), negb_involutive.
    split; reflexivity.
Qed.

(** C10: the absent marker is exactly [undefined].  [from(p)] and [Some(p)]
    build the same container.  For every [p] other than [undefined] (so for
    [null], [0], [false] and the empty string) [isSome()] is true on it,
    [isNone()] is false and [unwrap()] returns [p].  For [undefined], and
    for nothing else, the container is a [None]: [isSome()] is false,
    [isNone()] is true and [unwrap()] throws. *)
Theorem only_undefined_is_absent (σ : State) (p : value) :
  ∃ o σ',
    Option.from p σ = (Normal o, σ') ∧
    Option.Some p σ = (Normal o, σ') ∧
    (p ≠ VUndefined →
       Option.isSome o σ' = (Normal true, σ') ∧
       Option.isNone o σ' = (Normal false, σ') ∧
       Option.unwrap o σ' = (Normal p, σ')) ∧
    (p = VUndefined →
       Option.isSome o σ' = (Normal false, σ') ∧
       Option.isNone o σ' = (Normal true, σ') ∧
       Option.unwrap o σ'
         = (Throw (Error "unwrap: Expected Some(), was None()"), σ')) ∧
    (Option.isSome o σ' = (Normal true, σ') ↔ p ≠ VUndefined) ∧
    (Option.isNone o σ' = (Normal true, σ') ↔ p = VUndefined).
Proof.
  destruct (new_spec σ p) as (o & σ' & Hnew & _ & Hheap & _).
  exists o, σ'. split; [exact Hnew|]. split; [exact Hnew|].
  assert (Hslot : heap σ' !! o = Some p)
    by (rewrite Hheap; apply lookup_insert_eq).
  assert (Hdef : p ≠ VUndefined →
            Option.isSome o σ' = (Normal true, σ') ∧
            Option.isNone o σ' = (Normal false, σ') ∧
            Option.unwrap o σ' = (Normal p, σ')).
  { intros Hp. assert (Hs : holds_Some σ' o p) by (by split).
    split; [apply (holds_Some_isSome _ _ _ Hs)|].
    split; [apply (holds_Some_isNone _ _ _ Hs)|].
    unfold Option.unwrap. run_with (read_slot _ _ _ Hslot).
    rewrite (typeof_defined _ Hp). reflexivity. }
  assert (Hundef : p = VUndefined →
            Option.isSome o σ' = (Normal false, σ') ∧
            Option.isNone o σ' = (Normal true, σ') ∧
            Option.unwrap o σ'
              = (Throw (Error "unwrap: Expected Some(), was None()"), σ')).
  { intros ->.
    split; [apply (holds_None_isSome _ _ Hslot)|].
    split; [apply (holds_None_isNone _ _ Hslot)|].
    unfold Option.unwrap. run_with (read_slot _ _ _ Hslot). reflexivity. }
  split; [exact Hdef|]. split; [exact Hundef|]. split.
  - split.
    + intros Htrue Hp. destruct (Hundef Hp) as [Hfalse _]. congruence.
    + intros Hp. apply (Hdef Hp).
  - split.
    + intros Htrue. destruct (container_cases _ _ _ Hslot) as [[_ Hp]|[Hp _]];
        [|exact Hp].
      destruct (Hdef Hp) as (_ & Hfalse & _). congruence.
    + intros Hp. apply (Hundef Hp).
Qed.

(** The falsy payloads [null], [0], [false] and [""] are kept as they are,
    and [undefined] gives a [None]. *)
Lemma only_undefined_is_absent_witness :
  Forall (λ p, ∃ o σ', Option.from p empty_State = (Normal o, σ') ∧
                       Option.Some p empty_State = (Normal o, σ') ∧
                       Option.isSome o σ' = (Normal true, σ') ∧
                       Option.isNone o σ' = (Normal false, σ') ∧
                       Option.unwrap o σ' = (Normal p, σ'))
         [VNull; VNumber 0; VBool false; VString ""] ∧
  ∃ o σ', Option.from VUndefined empty_State = (Normal o, σ') ∧
          Option.Some VUndefined empty_State = (Normal o, σ') ∧
          Option.isSome o σ' = (Normal false, σ') ∧
          Option.isNone o σ' = (Normal true, σ') ∧
          Option.unwrap o σ'
            = (Throw (Error "unwrap: Expected Some(), was None()"), σ').
Proof.
  split.
  - repeat constructor;
      match goal with
      | |- ∃ _ _, Option.from ?p _ = _ ∧ _ =>
          destruct (only_undefined_is_absent empty_State p)
            as (o & σ' & H1 & H2 & H3 & _);
          exists o, σ'; destruct H3 as (H3 & H4 & H5); [discriminate|]; auto
      end.
  - destruct (only_undefined_is_absent empty_State VUndefined)
      as (o & σ' & H1 & H2 & _ & H3 & _).
    exists o, σ'. destruct (H3 eq_refl) as (H4 & H5 & H6). auto.
Defined.

(** ** Unwrapping *)

(** C6: [expect(message)] and [unwrap()] return the payload of a [Some]; on
    a [None], [expect] throws an error whose message is the caller's, as it
    is, and [unwrap] throws an error with the message
    ["unwrap: Expected Some(), was None()"].  Neither changes the state. *)
Theorem expect_unwrap_cases (σ : State) (this : loc) (msg : string) :
  (∀ p, holds_Some σ this p →
        Option.expect this msg σ = (Normal p, σ) ∧
        Option.unwrap this σ = (Normal p, σ)) ∧
  (holds_None σ this →
        Option.expect this msg σ = (Throw (Error msg), σ) ∧
        Option.unwrap this σ =
          (Throw (Error "unwrap: Expected Some(), was None()"), σ)).
Proof.
  split.
  - intros p [H Hp]. unfold Option.expect, Option.unwrap.
    repeat run_with (read_slot _ _ _ H).
    rewrite (typeof_defined _ Hp). split; reflexivity.
  - intros H. unfold Option.expect, Option.unwrap.
    repeat run_with (read_slot _ _ _ H).
    split; reflexivity.
Qed.

Lemma expect_unwrap_cases_witness :
  (Option.expect 1%positive "something bad" st_some1 = (Normal (VNumber 1), st_some1) ∧
   Option.unwrap 1%positive st_some1 = (Normal (VNumber 1), st_some1)) ∧
  (Option.expect 1%positive "something bad" st_none =
     (Throw (Error "something bad"), st_none) ∧
   Option.unwrap 1%positive st_none =
     (Throw (Error "unwrap: Expected Some(), was None()"), st_none)).
Proof.
  split.
  - apply (expect_unwrap_cases st_some1 1%positive "something bad").
    split; [reflexivity | discriminate].
  - apply (expect_unwrap_cases st_none 1%positive "something bad").
    reflexivity.
Defined.

(** ** In-place mutation *)

(** [take] and [replace] share one shape: read the slot, assign it, and
    build a new container from what was read. *)
Lemma exchange_spec σ this old payload :
  heap σ !! this = Some old →
  ∃ r σ',
    (x <- read this;; write this payload;; Option.from x) σ = (Normal r, σ') ∧
    r ≠ this ∧
    heap σ !! r = None ∧
    heap σ' !! r = Some old ∧
    heap σ' !! this = Some payload ∧
    (∀ o, o ≠ r → o ≠ this → heap σ' !! o = heap σ !! o) ∧
    calls σ' = calls σ.
Proof.
  intros H.
  run_with (read_slot _ _ _ H).
  run_with (write_slot _ _ _ payload H).
  set (σ1 := mkState (<[this := payload]> (heap σ)) (calls σ)).
  assert (H1 : heap σ1 !! this = Some payload) by apply lookup_insert_eq.
  pose proof (next_loc_ne _ _ _ H1) as Hne.
  pose proof (next_loc_fresh σ1) as Hfresh.
  exists (next_loc σ1), (mkState (<[next_loc σ1 := old]> (heap σ1)) (calls σ1)).
  split; [reflexivity|]. split; [congruence|]. simpl in *.
  split; [by rewrite lookup_insert_ne in Hfresh|].
  split; [apply lookup_insert_eq|].
  split; [by rewrite lookup_insert_ne, lookup_insert_eq|].
  split; [|reflexivity].
  intros o Ho1 Ho2. by rewrite !lookup_insert_ne.
Qed.

(** C5: after [take()] the receiver is [None]; [take()] on a [Some(p)]
    returns a [Some(p)] and on a [None] returns a [None]; a second [take()]
    on the same receiver returns a [None] (and the container returned by the
    first call still holds what it held). *)
Theorem take_leaves_None (σ : State) (this : loc) (p : value) :
  heap σ !! this = Some p →
  ∃ r σ',
    Option.take this σ = (Normal r, σ') ∧
    holds_None σ' this ∧
    (holds_Some σ this p → holds_Some σ' r p) ∧
    (holds_None σ this → holds_None σ' r) ∧
    ∃ r2 σ'',
      Option.take this σ' = (Normal r2, σ'') ∧
      holds_None σ'' r2 ∧ holds_None σ'' this ∧
      heap σ'' !! r = Some p.
Proof.
  intros H.
  destruct (exchange_spec σ this p VUndefined H)
    as (r & σ' & Hrun & Hne & _ & Hr & Hthis & _ & _).
  exists r, σ'. split; [exact Hrun|]. split; [exact Hthis|].
  split; [intros [_ Hp]; by split|].
  split; [intros Hnone; unfold holds_None in *; congruence|].
  destruct (exchange_spec σ' this VUndefined VUndefined Hthis)
    as (r2 & σ'' & Hrun2 & Hne2 & Hfresh2 & Hr2 & Hthis2 & Hframe & _).
  exists r2, σ''. split; [exact Hrun2|]. split; [exact Hr2|].
  split; [exact Hthis2|].
  rewrite Hframe; [exact Hr| |exact Hne]. congruence.
Qed.

Lemma take_leaves_None_witness :
  ∃ r σ',
    Option.take 1%positive st_some1 = (Normal r, σ') ∧
    holds_None σ' 1%positive ∧
    (holds_Some st_some1 1%positive (VNumber 1) → holds_Some σ' r (VNumber 1)) ∧
    (holds_None st_some1 1%positive → holds_None σ' r) ∧
    ∃ r2 σ'',
      Option.take 1%positive σ' = (Normal r2, σ'') ∧
      holds_None σ'' r2 ∧ holds_None σ'' 1%positive ∧
      heap σ'' !! r = Some (VNumber 1).
Proof. apply (take_leaves_None st_some1 1%positive (VNumber 1)). reflexivity. Defined.




(** ** Transformation and chaining *)

Lemma bind_assoc {A B C} (c : M A) (k : A → M B) (k' : B → M C) σ :
  (y <- (x <- c;; k x);; k' y) σ = (x <- c;; y <- k x;; k' y) σ.
Proof. unfold bind. destruct (c σ) as [[a|e|] σ']; reflexivity. Qed.

Lemma bind_ext {A B} (c : M A) (k k' : A → M B) σ :
  (∀ a σ', k a σ' = k' a σ') → (x <- c;; k x) σ = (x <- c;; k' x) σ.
Proof.
  intros H. unfold bind. destruct (c σ) as [[a|e|] σ']; [apply H|reflexivity..].
Qed.

(** C4: [map(fn)] on a [None] returns that [None] and does not invoke [fn]:
    the state, with its record of calls, is as before for every [fn], an
    instrumented one included.  On a [Some(p)] it returns [from(fn(p))]; so
    a result [v] of [fn] is wrapped as [Some(v)] unless it is [undefined],
    in which case the container returned is a [None]. *)
Theorem map_cases (σ : State) (this : loc) (fn : value → M value) :
  (holds_None σ this →
     Option.map this fn σ = (Normal this, σ) ∧
     ∀ name, Option.map this (spy name fn) σ = (Normal this, σ)) ∧
  (∀ p, holds_Some σ this p →
     Option.map this fn σ = (r <- fn p;; Option.from r) σ) ∧
  (∀ p v σ1, holds_Some σ this p → fn p σ = (Normal v, σ1) →
     ∃ r σ', Option.map this fn σ = (Normal r, σ') ∧
             heap σ1 !! r = None ∧
             (v = VUndefined → holds_None σ' r) ∧
             (v ≠ VUndefined → holds_Some σ' r v)).
Proof.
  assert (Hsome : ∀ p, holds_Some σ this p →
            Option.map this fn σ = (r <- fn p;; Option.from r) σ).
  { intros p [H Hp]. unfold Option.map.
    run_with (read_slot _ _ _ H).
    rewrite (typeof_defined _ Hp). reflexivity. }
  split; [|split; [exact Hsome|]].
  - intros H. unfold Option.map.
    repeat run_with (read_slot _ _ _ H).
    split; [reflexivity|]. intros name.
    repeat run_with (read_slot _ _ _ H). reflexivity.
  - intros p v σ1 Hp Hfn. rewrite (Hsome p Hp).
    run_with Hfn.
    destruct (new_spec σ1 v) as (r & σ' & Hnew & Hfresh & Hheap & _).
    exists r, σ'. split; [exact Hnew|]. split; [exact Hfresh|].
    assert (Hslot : heap σ' !! r = Some v)
      by (rewrite Hheap; apply lookup_insert_eq).
    split; [intros ->; exact Hslot | intros Hv; by split].
Qed.

Lemma map_cases_witness :
  (Option.map 1%positive (λ _, ret (VNumber 7)) st_none = (Normal 1%positive, st_none) ∧
   ∀ name, Option.map 1%positive (spy name (λ _, ret (VNumber 7))) st_none
           = (Normal 1%positive, st_none)) ∧
  ∃ r σ', Option.map 1%positive (λ _, ret VUndefined) st_some1 = (Normal r, σ') ∧
          heap st_some1 !! r = None ∧
          (VUndefined = VUndefined → holds_None σ' r) ∧
          (VUndefined ≠ VUndefined → holds_Some σ' r VUndefined).
Proof.
  split.
  - apply (map_cases st_none 1%positive (λ _, ret (VNumber 7))). reflexivity.
  - apply (proj2 (proj2 (map_cases st_some1 1%positive (λ _, ret VUndefined)))
             (VNumber 1) VUndefined st_some1).
    + split; [reflexivity | discriminate].
    + reflexivity.
Defined.

Lemma andThen_None σ this (fn : value → M loc) :
  holds_None σ this → Option.andThen this fn σ = (Normal this, σ).
Proof.
  intros H. unfold Option.andThen.
  run_with (holds_None_isNone _ _ H). reflexivity.
Qed.

Lemma andThen_Some σ this (fn : value → M loc) p :
  holds_Some σ this p → Option.andThen this fn σ = fn p σ.
Proof.
  intros H. unfold Option.andThen.
  run_with (holds_Some_isNone _ _ _ H).
  destruct H as [H _].
  run_with (read_slot _ _ _ H). reflexivity.
Qed.

(** A chain that starts from a [None] runs none of its steps. *)
Lemma andThen_chain_None fns : ∀ σ o,
  holds_None σ o → andThen_chain o fns σ = (Normal o, σ).
Proof.
  induction fns as [|fn rest IH]; intros σ o H; simpl; [reflexivity|].
  run_with (andThen_None _ _ fn H). by apply IH.
Qed.

(** A chain is the sequence of its two halves. *)
Lemma andThen_chain_app before after : ∀ σ o,
  andThen_chain o (before ++ after) σ =
  (r <- andThen_chain o before;; andThen_chain r after) σ.
Proof.
  induction before as [|fn rest IH]; intros σ o; simpl; [reflexivity|].
  rewrite bind_assoc. apply bind_ext. intros r σ1. apply IH.
Qed.

(** C7: [andThen(fn)] on a [None] returns that [None] and leaves the state
    as it was, whatever [fn] is, so [fn] is not invoked; on a [Some(p)] it is
    the call [fn(p)], its result returned as it is.  Hence
    [Some(2).andThen(square).andThen(square)] is [Some(16)], and when the
    steps [before] of a chain end in a [None], the chain with any further
    steps [after] ends in the same container and the same state: no step of
    [after] has run. *)
Theorem andThen_composes_and_short_circuits
    (σ : State) (this : loc) (fn : value → M loc) :
  (holds_None σ this → Option.andThen this fn σ = (Normal this, σ)) ∧
  (∀ p, holds_Some σ this p → Option.andThen this fn σ = fn p σ) ∧
  (∃ r σ', square_twice empty_State = (Normal r, σ') ∧
           holds_Some σ' r (VNumber 16)) ∧
  (∀ before after r σ1,
     andThen_chain this before σ = (Normal r, σ1) → holds_None σ1 r →
     andThen_chain this (before ++ after) σ = (Normal r, σ1)).
Proof.
  split; [apply andThen_None|]. split; [intros p; apply andThen_Some|].
  split.
  - eexists _, _. split; [vm_compute; reflexivity|].
    split; [reflexivity | discriminate].
  - intros before after r σ1 Hrun Hnone.
    rewrite andThen_chain_app. run_with Hrun.
    by apply andThen_chain_None.
Qed.

Lemma andThen_composes_and_short_circuits_witness :
  Option.andThen 1%positive (spy "square" square) st_none = (Normal 1%positive, st_none) ∧
  Option.andThen 1%positive square st_some1 = square (VNumber 1) st_some1 ∧
  andThen_chain 1%positive ([spy "nope" nope] ++ [spy "square" square]) st_some1 =
    andThen_chain 1%positive [spy "nope" nope] st_some1.
Proof.
  split; [|split].
  - apply (andThen_composes_and_short_circuits st_none 1%positive (spy "square" square)).
    reflexivity.
  - apply (andThen_composes_and_short_circuits st_some1 1%positive square).
    split; [reflexivity | discriminate].
  - etransitivity.
    + eapply (andThen_composes_and_short_circuits st_some1 1%positive square);
        [vm_compute; reflexivity | reflexivity].
    + vm_compute. reflexivity.
Defined.

(** Under instrumentation: in [Some(1).andThen(nope).andThen(square)] only
    [nope] is called, once, and in [None().andThen(square).andThen(square)]
    nothing is. *)
Example nope_then_square_calls :
  calls (andThen_chain 1%positive [spy "nope" nope; spy "square" square] st_some1).2
    = [("nope", VNumber 1)] ∧
  calls (andThen_chain 1%positive [spy "square" square; spy "square" square] st_none).2
    = [].
Proof. split; vm_compute; reflexivity. Qed.

(** ** Boolean combinators *)

Lemma xor_this σ this b p :
  holds_Some σ this p → holds_None σ b →
  Option.xor this b σ = (Normal this, σ).
Proof.
  intros Ha Hb. unfold Option.xor, and_lazy. rewrite bind_assoc.
  run_with (holds_Some_isSome _ _ _ Ha). run_with (holds_None_isNone _ _ Hb).
  reflexivity.
Qed.

Lemma xor_b σ this b q :
  holds_None σ this → holds_Some σ b q →
  Option.xor this b σ = (Normal b, σ).
Proof.
  intros Ha Hb. unfold Option.xor, and_lazy. rewrite bind_assoc.
  run_with (holds_None_isSome _ _ Ha). rewrite bind_ret, bind_assoc.
  run_with (holds_None_isNone _ _ Ha). run_with (holds_Some_isSome _ _ _ Hb).
  reflexivity.
Qed.

Lemma xor_both_Some σ this b p q :
  holds_Some σ this p → holds_Some σ b q →
  Option.xor this b σ = Option.None σ.
Proof.
  intros Ha Hb. unfold Option.xor, and_lazy. rewrite bind_assoc.
  run_with (holds_Some_isSome _ _ _ Ha). run_with (holds_Some_isNone _ _ _ Hb).
  rewrite bind_assoc. run_with (holds_Some_isNone _ _ _ Ha). reflexivity.
Qed.

Lemma xor_both_None σ this b :
  holds_None σ this → holds_None σ b →
  Option.xor this b σ = Option.None σ.
Proof.
  intros Ha Hb. unfold Option.xor, and_lazy. rewrite bind_assoc.
  run_with (holds_None_isSome _ _ Ha). rewrite bind_ret, bind_assoc.
  run_with (holds_None_isNone _ _ Ha). run_with (holds_None_isSome _ _ Hb).
  reflexivity.
Qed.

(** [Option.None()] builds a new container that is a [None]. *)
Lemma None_spec σ :
  ∃ r σ', Option.None σ = (Normal r, σ') ∧ heap σ !! r = None ∧ holds_None σ' r.
Proof.
  destruct (new_spec σ VUndefined) as (r & σ' & Hnew & Hfresh & Hheap & _).
  exists r, σ'. split; [exact Hnew|]. split; [exact Hfresh|].
  unfold holds_None. rewrite Hheap. apply lookup_insert_eq.
Qed.

(** C8: [xor(b)] returns a [Some] exactly when exactly one of the receiver
    and [b] is a [Some], and what it returns then is that operand itself;
    when both are [Some] and when both are [None] it returns a new
    [None]. *)
Theorem xor_cases (σ : State) (this b : loc) (p q : value) :
  heap σ !! this = Some p → heap σ !! b = Some q →
  ∃ r σ',
    Option.xor this b σ = (Normal r, σ') ∧
    (holds_Some σ this p → holds_None σ b → r = this ∧ σ' = σ) ∧
    (holds_None σ this → holds_Some σ b q → r = b ∧ σ' = σ) ∧
    (holds_Some σ this p → holds_Some σ b q → holds_None σ' r) ∧
    (holds_None σ this → holds_None σ b → holds_None σ' r) ∧
    ((∃ v, holds_Some σ' r v) ↔
       (holds_Some σ this p ∧ holds_None σ b) ∨ (holds_None σ this ∧ holds_Some σ b q)).
Proof.
  intros Hp Hq.
  destruct (container_cases _ _ _ Hp) as [Ha|[-> Ha]];
    destruct (container_cases _ _ _ Hq) as [Hb|[-> Hb]].
  - destruct (None_spec σ) as (r & σ' & Hnew & _ & Hr).
    exists r, σ'. rewrite (xor_both_Some _ _ _ _ _ Ha Hb).
    repeat split; try done; try (intros; clash).
    + intros [v Hv]. clash.
    + intros [[_ ?]|[? _]]; clash.
  - exists this, σ. rewrite (xor_this _ _ _ _ Ha Hb).
    repeat split; try done; try (intros; clash).
    + by left.
    + by exists p.
  - exists b, σ. rewrite (xor_b _ _ _ _ Ha Hb).
    repeat split; try done; try (intros; clash).
    + by right.
    + by exists q.
  - destruct (None_spec σ) as (r & σ' & Hnew & _ & Hr).
    exists r, σ'. rewrite (xor_both_None _ _ _ Ha Hb).
    repeat split; try done; try (intros; clash).
    + intros [v Hv]. clash.
    + intros [[? _]|[_ ?]]; clash.
Qed.

Lemma xor_cases_witness :
  ∃ r σ',
    Option.xor 1%positive 2%positive st_some_none = (Normal r, σ') ∧
    (holds_Some st_some_none 1%positive (VNumber 1) → holds_None st_some_none 2%positive →
       r = 1%positive ∧ σ' = st_some_none) ∧
    (holds_None st_some_none 1%positive → holds_Some st_some_none 2%positive VUndefined →
       r = 2%positive ∧ σ' = st_some_none) ∧
    (holds_Some st_some_none 1%positive (VNumber 1) →
       holds_Some st_some_none 2%positive VUndefined → holds_None σ' r) ∧
    (holds_None st_some_none 1%positive → holds_None st_some_none 2%positive → holds_None σ' r) ∧
    ((∃ v, holds_Some σ' r v) ↔
       (holds_Some st_some_none 1%positive (VNumber 1) ∧ holds_None st_some_none 2%positive) ∨
       (holds_None st_some_none 1%positive ∧ holds_Some st_some_none 2%positive VUndefined)).
Proof.
  apply (xor_cases st_some_none 1%positive 2%positive (VNumber 1) VUndefined);
    reflexivity.
Defined.

(** ** Interoperation with [Result] *)

(** [okOr] on a [Some(p)]: the success outcome wrapping [p]. *)
Lemma okOr_Some σ this p msg c :
  holds_Some σ this p → Option.okOr this msg c σ = (Normal (Result.Ok p), σ).
Proof.
  intros [H Hp]. unfold Option.okOr.
  run_with (read_slot _ _ _ H).
  rewrite (typeof_defined _ Hp). reflexivity.
Qed.

(** [okOr] on a [None]: the failure outcome built from the message alone,
    whatever was passed as the code. *)
Lemma okOr_None σ this msg c :
  holds_None σ this → Option.okOr this msg c σ = (Normal (Result.Err msg None), σ).
Proof.
  intros H. unfold Option.okOr.
  run_with (read_slot _ _ _ H). reflexivity.
Qed.

(** C2, at the call [None().okOr("msg", 42)]: the code returns
    [Result.Err("msg")], which is not the failure outcome
    [Result.Err("msg", 42)] the claim describes; the sibling [okOrElse],
    given the pair [["msg", 42]], does pass the code on. *)
Theorem okOr_drops_code :
  Option.okOr 1%positive "msg" (Some (VNumber 42)) st_none
    = (Normal (Result.Err "msg" None), st_none) ∧
  Result.Err "msg" None ≠ Result.Err "msg" (Some (VNumber 42)) ∧
  Option.okOrElse 1%positive (ret (Pair "msg" (VNumber 42))) st_none
    = (Normal (Result.Err "msg" (Some (VNumber 42))), st_none).
Proof. split; [reflexivity|]. split; [discriminate | reflexivity]. Qed.

(** An awaited call of a method of the outcome in the receiver's slot: the
    answer of the method, and the state the rest of the program leaves. *)
Lemma await_call {A} pending σ this r method (m : Result value → M A) a :
  heap σ !! this = Some (VResult r) → m r σ = (Normal a, σ) →
  await pending (payload <- read this;; call_Result method m payload) σ
    = (Normal a, pending σ).
Proof.
  intros H Hm. unfold await. rewrite bind_assoc.
  run_with (read_slot _ _ _ H). cbn [call_Result]. by run_with Hm.
Qed.


Lemma transpose_Err pending σ this e c :
  leaves_alone pending this →
  heap σ !! this = Some (VResult (RErr e c)) →
  Option.transpose pending this σ
    = (Normal (Result.Err (message e) None), pending (pending σ)).
Proof.
  intros Hq H. unfold Option.transpose.
  run_with (read_slot _ _ _ H). cbn [instanceof_Result].
  run_with (await_call pending σ this _ "isErr" Result.isErr true H eq_refl).
  by run_with (await_call pending (pending σ) this _ "unwrapErr"
                 Result.unwrapErr e (Hq _ _ H) eq_refl).
Qed.

Lemma transpose_Ok pending σ this v :
  leaves_alone pending this →
  heap σ !! this = Some (VResult (ROk v)) →
  Option.transpose pending this σ
    = (o <- Option.from v;; ret (Result.Ok (VOption o)))
        (pending (pending (pending σ))).
Proof.
  intros Hq H. unfold Option.transpose.
  run_with (read_slot _ _ _ H). cbn [instanceof_Result].
  run_with (await_call pending σ this _ "isErr" Result.isErr false H eq_refl).
  run_with (await_call pending (pending σ) this _ "isOk" Result.isOk true
              (Hq _ _ H) eq_refl).
  by run_with (await_call pending (pending (pending σ)) this _ "unwrap"
                 Result.unwrap v (Hq _ _ (Hq _ _ H)) eq_refl).
Qed.

Lemma transpose_other pending σ this x :
  heap σ !! this = Some x → (∀ r, x ≠ VResult r) →
  Option.transpose pending this σ
    = (o <- Option.None;; ret (Result.Ok (VOption o))) σ.
Proof.
  intros H Hx. unfold Option.transpose. run_with (read_slot _ _ _ H).
  destruct x; try reflexivity. by destruct (Hx r).
Qed.

(** C1, as the code has it: as long as the rest of the program does not
    assign the receiver while the promise is pending, [transpose()] resolves
    by cases on the receiver.  A [None] resolves to a success outcome
    wrapping a new [None].  A [Some] of a failure outcome resolves to a
    failure outcome built from the message of the inner failure.  A [Some]
    of a success outcome with inner value [v] resolves to a success outcome
    wrapping [from(v)]: a [Some(v)] when [v] is not [undefined] and a [None]
    when it is.  A [Some] of anything that is not an outcome resolves to a
    success outcome wrapping a new [None]. *)
Theorem transpose_cases
    (pending : State → State) (σ : State) (this : loc) :
  leaves_alone pending this →
  (holds_None σ this →
     ∃ o σ', Option.transpose pending this σ
               = (Normal (Result.Ok (VOption o)), σ') ∧
             Option.None σ = (Normal o, σ') ∧ holds_None σ' o) ∧
  (∀ err code, holds_Some σ this (VResult (RErr err code)) →
     Option.transpose pending this σ
       = (Normal (Result.Err (message err) None), pending (pending σ))) ∧
  (∀ v, holds_Some σ this (VResult (ROk v)) →
     ∃ o σ', Option.transpose pending this σ
               = (Normal (Result.Ok (VOption o)), σ') ∧
             Option.from v (pending (pending (pending σ))) = (Normal o, σ') ∧
             (v ≠ VUndefined → holds_Some σ' o v) ∧
             (v = VUndefined → holds_None σ' o)) ∧
  (∀ x, holds_Some σ this x → (∀ r, x ≠ VResult r) →
     ∃ o σ', Option.transpose pending this σ
               = (Normal (Result.Ok (VOption o)), σ') ∧
             Option.None σ = (Normal o, σ') ∧ holds_None σ' o).
Proof.
  intros Hq.
  assert (Hnone : ∀ x, heap σ !! this = Some x → (∀ r, x ≠ VResult r) →
            ∃ o σ', Option.transpose pending this σ
                      = (Normal (Result.Ok (VOption o)), σ') ∧
                    Option.None σ = (Normal o, σ') ∧ holds_None σ' o).
  { intros x H Hx.
    destruct (None_spec σ) as (o & σ' & Hnew & _ & Ho).
    exists o, σ'. split; [|by split].
    rewrite (transpose_other _ _ _ _ H Hx). by run_with Hnew. }
  split; [|split; [|split]].
  - intros H. apply (Hnone VUndefined H). discriminate.
  - intros err code [H _]. exact (transpose_Err _ _ _ _ _ Hq H).
  - intros v [H _].
    destruct (new_spec (pending (pending (pending σ))) v)
      as (o & σ' & Hnew & _ & Hheap & _).
    assert (Hslot : heap σ' !! o = Some v)
      by (rewrite Hheap; apply lookup_insert_eq).
    exists o, σ'. split; [|split; [exact Hnew|split]].
    + rewrite (transpose_Ok _ _ _ _ Hq H). unfold Option.from.
      by run_with Hnew.
    + intros Hv. by split.
    + intros ->. exact Hslot.
  - intros x [H _] Hx. by apply (Hnone x).
Qed.

Lemma transpose_cases_witness :
  (∃ o σ', Option.transpose id 1%positive st_none
             = (Normal (Result.Ok (VOption o)), σ') ∧
           Option.None st_none = (Normal o, σ') ∧ holds_None σ' o) ∧
  Option.transpose id 1%positive st_some_err
    = (Normal (Result.Err "boom" None), id (id st_some_err)) ∧
  (∃ o σ', Option.transpose id 1%positive st_some_ok
             = (Normal (Result.Ok (VOption o)), σ') ∧
           Option.from (VNumber 1) (id (id (id st_some_ok))) = (Normal o, σ') ∧
           (VNumber 1 ≠ VUndefined → holds_Some σ' o (VNumber 1)) ∧
           (VNumber 1 = VUndefined → holds_None σ' o)) ∧
  (∃ o σ', Option.transpose id 1%positive st_some1
             = (Normal (Result.Ok (VOption o)), σ') ∧
           Option.None st_some1 = (Normal o, σ') ∧ holds_None σ' o).
Proof.
  assert (Hq : leaves_alone id 1%positive) by (intros σ p H; exact H).
  split; [|split; [|split]].
  - apply (transpose_cases id st_none 1%positive Hq). reflexivity.
  - apply (proj1 (proj2 (transpose_cases id st_some_err 1%positive Hq))
             (Error "boom") None).
    split; [reflexivity | discriminate].
  - apply (proj1 (proj2 (proj2 (transpose_cases id st_some_ok 1%positive Hq)))
             (VNumber 1)).
    split; [reflexivity | discriminate].
  - apply (proj2 (proj2 (proj2 (transpose_cases id st_some1 1%positive Hq)))
             (VNumber 1)).
    + split; [reflexivity | discriminate].
    + discriminate.
Defined.

(** C1, as it is stated, fails twice.  [Some(Ok(undefined)).transpose()],
    with nothing else running, resolves to a success outcome wrapping a
    container on which [isSome()] is false: a [None], not a [Some] of the
    inner value.  And [Some(Ok(1)).transpose()] does not resolve at all
    when the receiver is emptied while the promise is pending: the promise
    is rejected. *)
Lemma transpose_Ok_undefined_wraps_None :
  (∃ o σ', Option.transpose id 1%positive st_some_ok_undefined
             = (Normal (Result.Ok (VOption o)), σ') ∧
           Option.isSome o σ' = (Normal false, σ') ∧
           Option.isNone o σ' = (Normal true, σ') ∧
           ∀ q, ¬ holds_Some σ' o q) ∧
  (∃ e σ', Option.transpose (emptying 1%positive) 1%positive st_some_ok
             = (Throw e, σ')).
Proof.
  split.
  - eexists _, _. split; [reflexivity|].
    split; [reflexivity|]. split; [reflexivity|].
    intros q [Hq Hdef]. vm_compute in Hq. congruence.
  - eexists _, _. reflexivity.
Qed.

(** * Further properties of the class *)

(** ** Fallbacks: [unwrapOr], [unwrapOrElse], [mapOr], [mapOrElse] *)

(** X1: [unwrapOr(fallback)] and [unwrapOrElse(fn)] return the payload of a
    [Some] and leave the state as it was, whatever [fn] is, so [fn] is not
    invoked; on a [None], [unwrapOr] returns [fallback] as it is and
    [unwrapOrElse] is the call [fn()]. *)
Theorem unwrapOr_unwrapOrElse_cases
    (σ : State) (this : loc) (fallback : value) (fn : M value) :
  (∀ p, holds_Some σ this p →
     Option.unwrapOr this fallback σ = (Normal p, σ) ∧
     Option.unwrapOrElse this fn σ = (Normal p, σ)) ∧
  (holds_None σ this →
     Option.unwrapOr this fallback σ = (Normal fallback, σ) ∧
     Option.unwrapOrElse this fn σ = fn σ).
Proof.
  split.
  - intros p [H Hp]. unfold Option.unwrapOr, Option.unwrapOrElse.
    repeat run_with (read_slot _ _ _ H).
    rewrite (typeof_defined _ Hp). split; reflexivity.
  - intros H. unfold Option.unwrapOr, Option.unwrapOrElse.
    repeat run_with (read_slot _ _ _ H). split; reflexivity.
Qed.

Lemma unwrapOr_unwrapOrElse_cases_witness :
  (Option.unwrapOr 1%positive (VNumber 2) st_some1 = (Normal (VNumber 1), st_some1) ∧
   Option.unwrapOrElse 1%positive (throw (Error "called")) st_some1
     = (Normal (VNumber 1), st_some1)) ∧
  (Option.unwrapOr 1%positive (VNumber 2) st_none = (Normal (VNumber 2), st_none) ∧
   Option.unwrapOrElse 1%positive (throw (Error "called")) st_none
     = throw (Error "called") st_none).
Proof.
  split.
  - apply (unwrapOr_unwrapOrElse_cases st_some1 1%positive (VNumber 2)
             (throw (Error "called"))).
    split; [reflexivity | discriminate].
  - apply (unwrapOr_unwrapOrElse_cases st_none 1%positive (VNumber 2)
             (throw (Error "called"))).
    reflexivity.
Defined.

(** X2: [mapOr] and [mapOrElse] run exactly one of their two arguments.  On
    a [Some(p)] both are the call [fn(p)], whose result is returned as it is
    (it is not wrapped, and [undefined] stays [undefined]); on a [None],
    [mapOr] returns [fallback] without a call and [mapOrElse] is the call
    [fallback()]. *)
Theorem mapOr_mapOrElse_run_one
    (σ : State) (this : loc) (fallback : value) (fallback_fn : M value)
    (fn : value → M value) :
  (∀ p, holds_Some σ this p →
     Option.mapOr this fallback fn σ = fn p σ ∧
     Option.mapOrElse this fallback_fn fn σ = fn p σ) ∧
  (holds_None σ this →
     Option.mapOr this fallback fn σ = (Normal fallback, σ) ∧
     Option.mapOrElse this fallback_fn fn σ = fallback_fn σ).
Proof.
  split.
  - intros p [H Hp]. unfold Option.mapOr, Option.mapOrElse.
    repeat run_with (read_slot _ _ _ H).
    rewrite (typeof_defined _ Hp). split; reflexivity.
  - intros H. unfold Option.mapOr, Option.mapOrElse.
    repeat run_with (read_slot _ _ _ H). split; reflexivity.
Qed.

Lemma mapOr_mapOrElse_run_one_witness :
  (Option.mapOr 1%positive (VNumber 2) (spy "fn" (pure_fn (λ _, VUndefined))) st_some1
     = spy "fn" (pure_fn (λ _, VUndefined)) (VNumber 1) st_some1 ∧
   Option.mapOrElse 1%positive (throw (Error "called"))
       (spy "fn" (pure_fn (λ _, VUndefined))) st_some1
     = spy "fn" (pure_fn (λ _, VUndefined)) (VNumber 1) st_some1) ∧
  (Option.mapOr 1%positive (VNumber 2) (spy "fn" (pure_fn (λ _, VUndefined))) st_none
     = (Normal (VNumber 2), st_none) ∧
   Option.mapOrElse 1%positive (throw (Error "called"))
       (spy "fn" (pure_fn (λ _, VUndefined))) st_none
     = throw (Error "called") st_none).
Proof.
  split.
  - apply (mapOr_mapOrElse_run_one st_some1 1%positive (VNumber 2)
             (throw (Error "called")) (spy "fn" (pure_fn (λ _, VUndefined)))).
    split; [reflexivity | discriminate].
  - apply (mapOr_mapOrElse_run_one st_none 1%positive (VNumber 2)
             (throw (Error "called")) (spy "fn" (pure_fn (λ _, VUndefined)))).
    reflexivity.
Defined.

(** ** [okOrElse] *)

(** X3: [okOrElse(fn)] on a [Some(p)] returns the success outcome wrapping
    [p] and leaves the state as it was, whatever [fn] is.  On a [None] it
    calls [fn]: a bare message gives the failure outcome built from the
    message alone, a pair gives the failure outcome built from message and
    code, and an error thrown by [fn] is thrown on. *)
Theorem okOrElse_cases (σ : State) (this : loc) (fn : M ErrArgs) :
  (∀ p, holds_Some σ this p →
     Option.okOrElse this fn σ = (Normal (Result.Ok p), σ)) ∧
  (holds_None σ this →
     (∀ msg σ1, fn σ = (Normal (Bare msg), σ1) →
        Option.okOrElse this fn σ = (Normal (Result.Err msg None), σ1)) ∧
     (∀ msg code σ1, fn σ = (Normal (Pair msg code), σ1) →
        Option.okOrElse this fn σ
          = (Normal (Result.Err msg (Some code)), σ1)) ∧
     (∀ e σ1, fn σ = (Throw e, σ1) →
        Option.okOrElse this fn σ = (Throw e, σ1))).
Proof.
  split.
  - intros p [H Hp]. unfold Option.okOrElse.
    run_with (read_slot _ _ _ H). rewrite (typeof_defined _ Hp). reflexivity.
  - intros H. unfold Option.okOrElse.
    split; [|split]; intros; run_with (read_slot _ _ _ H); simpl;
      unfold bind; by rewrite H0.
Qed.

Lemma okOrElse_cases_witness :
  Option.okOrElse 1%positive (throw (Error "called")) st_some1
    = (Normal (Result.Ok (VNumber 1)), st_some1) ∧
  Option.okOrElse 1%positive (ret (Pair "msg" (VNumber 42))) st_none
    = (Normal (Result.Err "msg" (Some (VNumber 42))), st_none).
Proof.
  split.
  - apply (okOrElse_cases st_some1 1%positive (throw (Error "called"))).
    split; [reflexivity | discriminate].
  - apply (okOrElse_cases st_none 1%positive (ret (Pair "msg" (VNumber 42))));
      reflexivity.
Defined.

(** ** [and], [or], [orElse], [xor] *)

Lemma and_both_Some σ this b p q :
  holds_Some σ this p → holds_Some σ b q →
  Option.and this b σ = (Normal b, σ).
Proof.
  intros Ha Hb. unfold Option.and, or_lazy. rewrite bind_assoc.
  run_with (holds_Some_isNone _ _ _ Ha). run_with (holds_Some_isNone _ _ _ Hb).
  reflexivity.
Qed.

Lemma and_this_None σ this b :
  holds_None σ this → Option.and this b σ = Option.None σ.
Proof.
  intros Ha. unfold Option.and, or_lazy. rewrite bind_assoc.
  run_with (holds_None_isNone _ _ Ha). reflexivity.
Qed.

Lemma and_b_None σ this b p :
  holds_Some σ this p → holds_None σ b → Option.and this b σ = Option.None σ.
Proof.
  intros Ha Hb. unfold Option.and, or_lazy. rewrite bind_assoc.
  run_with (holds_Some_isNone _ _ _ Ha). run_with (holds_None_isNone _ _ Hb).
  reflexivity.
Qed.

(** X4: [and(b)] returns [b] itself, without touching the state, when the
    receiver and [b] are both [Some]; when either is a [None] it returns a
    new [None] (never the receiver, never [b]).  So the result is a [Some]
    exactly when both operands are. *)
Theorem and_cases (σ : State) (this b : loc) (p q : value) :
  heap σ !! this = Some p → heap σ !! b = Some q →
  ∃ r σ',
    Option.and this b σ = (Normal r, σ') ∧
    (holds_Some σ this p → holds_Some σ b q → r = b ∧ σ' = σ) ∧
    (holds_None σ this ∨ holds_None σ b →
       heap σ !! r = None ∧ holds_None σ' r) ∧
    ((∃ v, holds_Some σ' r v) ↔ holds_Some σ this p ∧ holds_Some σ b q).
Proof.
  intros Hp Hq.
  assert (Hnone : holds_None σ this ∨ holds_None σ b →
            ∃ r σ', Option.and this b σ = (Normal r, σ') ∧
                    heap σ !! r = None ∧ holds_None σ' r).
  { intros Hor. destruct (None_spec σ) as (r & σ' & Hnew & Hfresh & Hr).
    exists r, σ'. split; [|by split].
    destruct (container_cases _ _ _ Hp) as [Ha|[-> Ha]].
    - destruct Hor as [?|Hb]; [clash|].
      by rewrite (and_b_None _ _ _ _ Ha Hb).
    - by rewrite (and_this_None _ _ b Ha). }
  destruct (container_cases _ _ _ Hp) as [Ha|[-> Ha]];
    [destruct (container_cases _ _ _ Hq) as [Hb|[-> Hb]]|].
  - exists b, σ. split; [apply (and_both_Some _ _ _ _ _ Ha Hb)|].
    split; [done|]. split; [intros [?|?]; clash|].
    split; [done | intros _; by exists q].
  - destruct (Hnone (or_intror Hb)) as (r & σ' & Hrun & Hfresh & Hr).
    exists r, σ'. split; [exact Hrun|].
    split; [intros; clash|]. split; [done|].
    split; [intros [v Hv]; clash | intros [_ ?]; clash].
  - destruct (Hnone (or_introl Ha)) as (r & σ' & Hrun & Hfresh & Hr).
    exists r, σ'. split; [exact Hrun|].
    split; [intros; clash|]. split; [done|].
    split; [intros [v Hv]; clash | intros [? _]; clash].
Qed.

Lemma and_cases_witness :
  ∃ r σ',
    Option.and 1%positive 2%positive st_some_none = (Normal r, σ') ∧
    (holds_Some st_some_none 1%positive (VNumber 1) →
     holds_Some st_some_none 2%positive VUndefined → r = 2%positive ∧ σ' = st_some_none) ∧
    (holds_None st_some_none 1%positive ∨ holds_None st_some_none 2%positive →
       heap st_some_none !! r = None ∧ holds_None σ' r) ∧
    ((∃ v, holds_Some σ' r v) ↔
       holds_Some st_some_none 1%positive (VNumber 1) ∧
       holds_Some st_some_none 2%positive VUndefined).
Proof.
  apply (and_cases st_some_none 1%positive 2%positive (VNumber 1) VUndefined);
    reflexivity.
Defined.

(** X5: [or(b)] and [orElse(fn)] return the receiver itself when it is a
    [Some], leaving the state as it was, so [fn] is not invoked; on a [None],
    [or] returns [b] itself and [orElse] is the call [fn()].  Neither builds
    a container.  If [b] exists, the result of [or] is a [Some] exactly when
    the receiver or [b] is. *)
Theorem or_orElse_cases (σ : State) (this b : loc) (fn : M loc) :
  (∀ p, holds_Some σ this p →
     Option.or this b σ = (Normal this, σ) ∧
     Option.orElse this fn σ = (Normal this, σ)) ∧
  (holds_None σ this →
     Option.or this b σ = (Normal b, σ) ∧
     Option.orElse this fn σ = fn σ) ∧
  (∀ p q, heap σ !! this = Some p → heap σ !! b = Some q →
     ∃ r, Option.or this b σ = (Normal r, σ) ∧
          ((∃ v, holds_Some σ r v) ↔ holds_Some σ this p ∨ holds_Some σ b q)).
Proof.
  assert (HS : ∀ p, holds_Some σ this p →
            Option.or this b σ = (Normal this, σ) ∧
            Option.orElse this fn σ = (Normal this, σ)).
  { intros p H. unfold Option.or, Option.orElse.
    repeat run_with (holds_Some_isSome _ _ _ H). by split. }
  assert (HN : holds_None σ this →
            Option.or this b σ = (Normal b, σ) ∧
            Option.orElse this fn σ = fn σ).
  { intros H. unfold Option.or, Option.orElse.
    repeat run_with (holds_None_isSome _ _ H). by split. }
  split; [exact HS|]. split; [exact HN|].
  intros p q Hp Hq.
  destruct (container_cases _ _ _ Hp) as [Ha|[-> Ha]].
  - exists this. split; [apply (HS p Ha)|].
    split; [by left | by exists p].
  - exists b. split; [apply (HN Ha)|]. split.
    + intros [v Hv]. right.
      destruct Hv as [Hv Hdef]. rewrite Hq in Hv. by injection Hv as ->.
    + intros [?|Hb]; [clash | by exists q].
Qed.

Lemma or_orElse_cases_witness :
  (Option.or 1%positive 2%positive st_some_none = (Normal 1%positive, st_some_none) ∧
   Option.orElse 1%positive (throw (Error "called")) st_some_none
     = (Normal 1%positive, st_some_none)) ∧
  (Option.or 2%positive 1%positive st_some_none = (Normal 1%positive, st_some_none) ∧
   Option.orElse 2%positive (throw (Error "called")) st_some_none
     = throw (Error "called") st_some_none).
Proof.
  split.
  - apply (or_orElse_cases st_some_none 1%positive 2%positive
             (throw (Error "called")) ) with (p := VNumber 1).
    split; [reflexivity | discriminate].
  - apply (or_orElse_cases st_some_none 2%positive 1%positive
             (throw (Error "called"))).
    reflexivity.
Defined.

(** ** [filter] *)

Lemma keeps_refl σ : keeps σ σ.
Proof. by split. Qed.

Lemma keeps_trans σ1 σ2 σ3 : keeps σ1 σ2 → keeps σ2 σ3 → keeps σ1 σ3.
Proof.
  intros [H1 C1] [H2 C2]. split; [|congruence].
  intros o p H. by apply H2, H1.
Qed.

(** A new container is not one of the old ones, and the old ones are
    kept. *)
Lemma new_keeps σ payload :
  ∃ o σ', Option.new payload σ = (Normal o, σ') ∧
    heap σ !! o = None ∧ heap σ' !! o = Some payload ∧ keeps σ σ'.
Proof.
  destruct (new_spec σ payload) as (o & σ' & Hnew & Hfresh & Hheap & Hcalls).
  exists o, σ'. split; [exact Hnew|]. split; [exact Hfresh|].
  split; [rewrite Hheap; apply lookup_insert_eq|].
  split; [|exact Hcalls].
  intros o' p H. rewrite Hheap, lookup_insert_ne; [exact H|].
  intros ->. congruence.
Qed.



(** X7: [filter(fn)] on a [None] returns the receiver and does not invoke
    [fn].  On a [Some(p)] it calls [fn(p)].  If the answer is true it
    returns a new container, not the receiver, holding the payload the
    receiver has after the call of [fn] (so [p] itself when [fn] assigns
    nothing); if the answer is false it returns a new [None].  In both cases
    the containers left by [fn], the receiver among them, are kept. *)
Theorem filter_cases (σ : State) (this : loc) (fn : value → M bool) :
  (holds_None σ this → Option.filter this fn σ = (Normal this, σ)) ∧
  (∀ p q σ1, holds_Some σ this p → fn p σ = (Normal true, σ1) →
     heap σ1 !! this = Some q →
     ∃ r σ', Option.filter this fn σ = (Normal r, σ') ∧
             heap σ1 !! r = None ∧ heap σ' !! r = Some q ∧ keeps σ1 σ') ∧
  (∀ p σ1, holds_Some σ this p → fn p σ = (Normal false, σ1) →
     ∃ r σ', Option.filter this fn σ = (Normal r, σ') ∧
             heap σ1 !! r = None ∧ holds_None σ' r ∧ keeps σ1 σ').
Proof.
  split; [|split].
  - intros H. unfold Option.filter.
    run_with (holds_None_isNone _ _ H). reflexivity.
  - intros p q σ1 Hp Hfn Hq.
    destruct (new_keeps σ1 q) as (r & σ' & Hnew & Hfresh & Hr & Hkeep).
    exists r, σ'.
    split; [|split; [exact Hfresh|split; [exact Hr|exact Hkeep]]].
    unfold Option.filter. run_with (holds_Some_isNone _ _ _ Hp).
    destruct Hp as [Hp _]. run_with (read_slot _ _ _ Hp).
    run_with Hfn. run_with (read_slot _ _ _ Hq). exact Hnew.
  - intros p σ1 Hp Hfn.
    destruct (new_keeps σ1 VUndefined) as (r & σ' & Hnew & Hfresh & Hr & Hkeep).
    exists r, σ'.
    split; [|split; [exact Hfresh|split; [exact Hr|exact Hkeep]]].
    unfold Option.filter. run_with (holds_Some_isNone _ _ _ Hp).
    destruct Hp as [Hp _]. run_with (read_slot _ _ _ Hp).
    run_with Hfn. exact Hnew.
Qed.

Lemma filter_cases_witness :
  Option.filter 1%positive (spy "fn" (pure_fn (λ _, true))) st_none
    = (Normal 1%positive, st_none) ∧
  (∃ r σ', Option.filter 1%positive (pure_fn (λ _, true)) st_some1 = (Normal r, σ') ∧
           heap st_some1 !! r = None ∧ heap σ' !! r = Some (VNumber 1) ∧
           keeps st_some1 σ') ∧
  (∃ r σ', Option.filter 1%positive (pure_fn (λ _, false)) st_some1 = (Normal r, σ') ∧
           heap st_some1 !! r = None ∧ holds_None σ' r ∧ keeps st_some1 σ').
Proof.
  split; [|split].
  - apply (filter_cases st_none 1%positive (spy "fn" (pure_fn (λ _, true)))).
    reflexivity.
  - apply (proj1 (proj2 (filter_cases st_some1 1%positive (pure_fn (λ _, true))))
             (VNumber 1) (VNumber 1) st_some1);
      [split; [reflexivity | discriminate] | reflexivity | reflexivity].
  - apply (proj2 (proj2 (filter_cases st_some1 1%positive (pure_fn (λ _, false))))
             (VNumber 1) st_some1);
      [split; [reflexivity | discriminate] | reflexivity].
Defined.

(** ** [getOrInsert], [getOrInsertWith] *)

(** X8: [getOrInsert(payload)] always returns the receiver itself and builds
    no container.  A [Some] is left as it is; on a [None] the payload is
    assigned to the receiver's slot and nothing else changes.  After the call
    with a payload other than [undefined] the receiver is a [Some], and a
    second [getOrInsert], with any payload, changes nothing. *)
Theorem getOrInsert_cases (σ : State) (this : loc) (old p : value) :
  heap σ !! this = Some old →
  ∃ σ',
    Option.getOrInsert this p σ = (Normal this, σ') ∧
    (holds_Some σ this old → σ' = σ) ∧
    (holds_None σ this → σ' = mkState (<[this := p]> (heap σ)) (calls σ)) ∧
    (p ≠ VUndefined →
       (∃ v, holds_Some σ' this v) ∧
       ∀ p', Option.getOrInsert this p' σ' = (Normal this, σ')).
Proof.
  intros H.
  assert (HS : ∀ σ0 v p0, holds_Some σ0 this v →
            Option.getOrInsert this p0 σ0 = (Normal this, σ0)).
  { intros σ0 v p0 Hv. unfold Option.getOrInsert.
    run_with (holds_Some_isSome _ _ _ Hv). reflexivity. }
  destruct (container_cases _ _ _ H) as [Ha|[-> Ha]].
  - exists σ. split; [apply (HS σ old p Ha)|]. split; [done|].
    split; [intros; clash|]. intros _. split; [by exists old|].
    intros p'. apply (HS σ old p' Ha).
  - exists (mkState (<[this := p]> (heap σ)) (calls σ)).
    split; [|split; [intros; clash|split; [done|]]].
    + unfold Option.getOrInsert. run_with (holds_None_isSome _ _ Ha).
      run_with (write_slot _ _ _ p Ha). reflexivity.
    + intros Hp.
      assert (Hv : holds_Some (mkState (<[this := p]> (heap σ)) (calls σ)) this p)
        by (split; [apply lookup_insert_eq | exact Hp]).
      split; [by exists p|]. intros p'. apply (HS _ p p' Hv).
Qed.

Lemma getOrInsert_cases_witness :
  ∃ σ',
    Option.getOrInsert 1%positive (VNumber 5) st_none = (Normal 1%positive, σ') ∧
    (holds_Some st_none 1%positive VUndefined → σ' = st_none) ∧
    (holds_None st_none 1%positive →
       σ' = mkState (<[1%positive := VNumber 5]> (heap st_none)) (calls st_none)) ∧
    (VNumber 5 ≠ VUndefined →
       (∃ v, holds_Some σ' 1%positive v) ∧
       ∀ p', Option.getOrInsert 1%positive p' σ' = (Normal 1%positive, σ')).
Proof.
  apply (getOrInsert_cases st_none 1%positive VUndefined (VNumber 5)).
  reflexivity.
Defined.

(** X9: [getOrInsertWith(fn)] on a [Some] returns the receiver and leaves the
    state as it was, whatever [fn] is, so [fn] is not invoked.  On a [None]
    it calls [fn]; the value [fn] returns is assigned to the receiver's slot
    in the state [fn] left (over anything [fn] itself put there) and the
    receiver is returned; an error thrown by [fn] is thrown on and nothing is
    assigned. *)
Theorem getOrInsertWith_cases (σ : State) (this : loc) (fn : M value) :
  (∀ p, holds_Some σ this p →
     Option.getOrInsertWith this fn σ = (Normal this, σ)) ∧
  (holds_None σ this →
     (∀ v q σ1, fn σ = (Normal v, σ1) → heap σ1 !! this = Some q →
        Option.getOrInsertWith this fn σ
          = (Normal this, mkState (<[this := v]> (heap σ1)) (calls σ1))) ∧
     (∀ e σ1, fn σ = (Throw e, σ1) →
        Option.getOrInsertWith this fn σ = (Throw e, σ1))).
Proof.
  split.
  - intros p H. unfold Option.getOrInsertWith.
    run_with (holds_Some_isSome _ _ _ H). reflexivity.
  - intros H. split.
    + intros v q σ1 Hfn Hq. unfold Option.getOrInsertWith.
      run_with (holds_None_isSome _ _ H). run_with Hfn.
      run_with (write_slot _ _ _ v Hq). reflexivity.
    + intros e σ1 Hfn. unfold Option.getOrInsertWith.
      run_with (holds_None_isSome _ _ H). unfold bind. by rewrite Hfn.
Qed.

Lemma getOrInsertWith_cases_witness :
  Option.getOrInsertWith 1%positive (throw (Error "called")) st_some1
    = (Normal 1%positive, st_some1) ∧
  Option.getOrInsertWith 1%positive (ret (VNumber 5)) st_none
    = (Normal 1%positive,
       mkState (<[1%positive := VNumber 5]> (heap st_none)) (calls st_none)) ∧
  Option.getOrInsertWith 1%positive (throw (Error "called")) st_none
    = (Throw (Error "called"), st_none).
Proof.
  split; [|split].
  - apply (getOrInsertWith_cases st_some1 1%positive (throw (Error "called"))
             ) with (p := VNumber 1).
    split; [reflexivity | discriminate].
  - apply (proj1 (proj2 (getOrInsertWith_cases st_none 1%positive (ret (VNumber 5)))
                    (eq_refl : holds_None st_none 1%positive))
             (VNumber 5) VUndefined st_none); reflexivity.
  - apply (proj2 (proj2 (getOrInsertWith_cases st_none 1%positive
                           (throw (Error "called")))
                    (eq_refl : holds_None st_none 1%positive))
             (Error "called") st_none); reflexivity.
Defined.

(** ** Laws of [andThen] and [map] *)

Lemma andThen_dangling σ this (fn : value → M loc) :
  heap σ !! this = None → Option.andThen this fn σ = (Wrong, σ).
Proof.
  intros H. unfold Option.andThen, Option.isNone, bind, read.
  by rewrite H.
Qed.

(** X10: [andThen] is associative: chaining [f] and then [g] on the receiver
    is the same computation, with the same result and the same final state,
    as chaining the single step that runs [f] and chains [g] on what [f]
    returns. *)
Theorem andThen_assoc (σ : State) (this : loc) (f g : value → M loc) :
  (r <- Option.andThen this f;; Option.andThen r g) σ =
  Option.andThen this (λ x, r <- f x;; Option.andThen r g) σ.
Proof.
  destruct (heap σ !! this) as [p|] eqn:H.
  - destruct (container_cases _ _ _ H) as [Ha|[-> Ha]].
    + rewrite (andThen_Some _ _ _ _ Ha). unfold bind at 1.
      by rewrite (andThen_Some _ _ _ _ Ha).
    + run_with (andThen_None _ _ f Ha).
      by rewrite !(andThen_None _ _ _ Ha).
  - rewrite (andThen_dangling _ _ _ H). unfold bind.
    by rewrite (andThen_dangling _ _ _ H).
Qed.

(** X11: the constructor [Some] is a unit for [andThen] up to the identity
    of the container.  [Some(p).andThen(f)] is the call [f(p)] when [p] is
    not [undefined]; [Some(undefined).andThen(f)] returns the container
    without calling [f].  [o.andThen(Option.Some)] returns a new container
    with the payload of [o] when [o] is a [Some], and [o] itself when it is
    a [None]. *)
Theorem andThen_Some_unit (σ : State) (f : value → M loc) :
  (∀ p, p ≠ VUndefined →
     (o <- Option.Some p;; Option.andThen o f) σ
       = (o <- Option.Some p;; f p) σ) ∧
  (o <- Option.Some VUndefined;; Option.andThen o f) σ
     = Option.Some VUndefined σ ∧
  (∀ this p, holds_Some σ this p →
     ∃ r σ', Option.andThen this Option.Some σ = (Normal r, σ') ∧
             heap σ !! r = None ∧ holds_Some σ' r p ∧ keeps σ σ') ∧
  (∀ this, holds_None σ this →
     Option.andThen this Option.Some σ = (Normal this, σ)).
Proof.
  split; [|split; [|split]].
  - intros p Hp.
    destruct (new_keeps σ p) as (o & σ' & Hnew & _ & Ho & _).
    unfold Option.Some. run_with Hnew. run_with Hnew.
    apply andThen_Some. by split.
  - destruct (new_keeps σ VUndefined) as (o & σ' & Hnew & _ & Ho & _).
    unfold Option.Some. run_with Hnew. rewrite Hnew.
    by apply andThen_None.
  - intros this p Hp. rewrite (andThen_Some _ _ _ _ Hp).
    destruct (new_keeps σ p) as (r & σ' & Hnew & Hfresh & Hr & Hkeep).
    exists r, σ'. split; [exact Hnew|]. split; [exact Hfresh|].
    split; [|exact Hkeep]. destruct Hp as [_ Hp]. by split.
  - intros this H. by apply andThen_None.
Qed.

Lemma andThen_Some_unit_witness :
  (o <- Option.Some (VNumber 3);; Option.andThen o square) empty_State
    = (o <- Option.Some (VNumber 3);; square (VNumber 3)) empty_State ∧
  (∃ r σ', Option.andThen 1%positive Option.Some st_some1 = (Normal r, σ') ∧
           heap st_some1 !! r = None ∧ holds_Some σ' r (VNumber 1) ∧
           keeps st_some1 σ') ∧
  Option.andThen 1%positive Option.Some st_none = (Normal 1%positive, st_none).
Proof.
  split; [|split].
  - apply (andThen_Some_unit empty_State square). discriminate.
  - apply (proj1 (proj2 (proj2 (andThen_Some_unit st_some1 square)))
             1%positive (VNumber 1)).
    split; [reflexivity | discriminate].
  - apply (andThen_Some_unit st_none square). reflexivity.
Defined.


Lemma map_None σ this (fn : value → M value) :
  holds_None σ this → Option.map this fn σ = (Normal this, σ).
Proof.
  intros H. unfold Option.map. run_with (read_slot _ _ _ H). reflexivity.
Qed.



(** ** Identity of containers *)

(** X13: [Option.None()] builds a container of its own at every call.  Two
    calls give two different references, neither of them a container of the
    state before, and filling the first by [getOrInsert] leaves the second a
    [None]. *)
Theorem None_is_not_shared (σ : State) (p : value) :
  ∃ a b σ',
    (a <- Option.None;; b <- Option.None;;
     Option.getOrInsert a p;; ret (a, b)) σ = (Normal (a, b), σ') ∧
    a ≠ b ∧ heap σ !! a = None ∧ heap σ !! b = None ∧
    heap σ' !! a = Some p ∧ holds_None σ' b ∧ keeps σ σ'.
Proof.
  destruct (new_keeps σ VUndefined) as (a & σa & Hnewa & Hfa & Ha & Hka).
  destruct (new_keeps σa VUndefined) as (b & σb & Hnewb & Hfb & Hb & Hkb).
  assert (Hab : a ≠ b) by (intros ->; congruence).
  assert (Ha' : heap σb !! a = Some VUndefined) by (by apply Hkb).
  exists a, b, (mkState (<[a := p]> (heap σb)) (calls σb)).
  split; [|split; [exact Hab|split; [exact Hfa|split; [|split; [|split]]]]].
  - unfold Option.None. run_with Hnewa. run_with Hnewb.
    unfold Option.getOrInsert. rewrite bind_assoc.
    run_with (holds_None_isSome _ _ Ha').
    rewrite bind_assoc. run_with (write_slot _ _ _ p Ha'). reflexivity.
  - destruct (heap σ !! b) as [v|] eqn:E; [|reflexivity].
    apply Hka in E. congruence.
  - apply lookup_insert_eq.
  - unfold holds_None. simpl. by rewrite lookup_insert_ne.
  - split; [|simpl; destruct Hka, Hkb; congruence].
    intros o v Ho. simpl. rewrite lookup_insert_ne; [by apply Hkb, Hka|].
    intros ->. congruence.
Qed.

(** X14: on a [None], [map], [andThen] and [filter] return the receiver
    itself and not a copy: a payload inserted through what they returned is
    inserted in the receiver.  No callback runs and no container is
    built. *)
Theorem None_results_are_the_receiver
    (σ : State) (this : loc) (p : value)
    (fn : value → M value) (step : value → M loc) (keep : value → M bool) :
  holds_None σ this →
  (r <- Option.map this fn;; Option.getOrInsert r p) σ
    = (Normal this, mkState (<[this := p]> (heap σ)) (calls σ)) ∧
  (r <- Option.andThen this step;; Option.getOrInsert r p) σ
    = (Normal this, mkState (<[this := p]> (heap σ)) (calls σ)) ∧
  (r <- Option.filter this keep;; Option.getOrInsert r p) σ
    = (Normal this, mkState (<[this := p]> (heap σ)) (calls σ)) ∧
  heap (mkState (<[this := p]> (heap σ)) (calls σ)) !! this = Some p.
Proof.
  intros H.
  assert (Hins : Option.getOrInsert this p σ
            = (Normal this, mkState (<[this := p]> (heap σ)) (calls σ))).
  { unfold Option.getOrInsert. run_with (holds_None_isSome _ _ H).
    run_with (write_slot _ _ _ p H). reflexivity. }
  split; [|split; [|split]].
  - by run_with (map_None _ _ fn H).
  - by run_with (andThen_None _ _ step H).
  - assert (Hf : Option.filter this keep σ = (Normal this, σ)).
    { unfold Option.filter. by run_with (holds_None_isNone _ _ H). }
    by run_with Hf.
  - apply lookup_insert_eq.
Qed.

Lemma None_results_are_the_receiver_witness :
  (r <- Option.map 1%positive (pure_fn (λ x, x));;
   Option.getOrInsert r (VNumber 5)) st_none
    = (Normal 1%positive,
       mkState (<[1%positive := VNumber 5]> (heap st_none)) (calls st_none)) ∧
  (r <- Option.andThen 1%positive square;;
   Option.getOrInsert r (VNumber 5)) st_none
    = (Normal 1%positive,
       mkState (<[1%positive := VNumber 5]> (heap st_none)) (calls st_none)) ∧
  (r <- Option.filter 1%positive (pure_fn (λ _, true));;
   Option.getOrInsert r (VNumber 5)) st_none
    = (Normal 1%positive,
       mkState (<[1%positive := VNumber 5]> (heap st_none)) (calls st_none)) ∧
  heap (mkState (<[1%positive := VNumber 5]> (heap st_none)) (calls st_none))
    !! 1%positive = Some (VNumber 5).
Proof.
  apply (None_results_are_the_receiver st_none 1%positive (VNumber 5)
           (pure_fn (λ x, x)) square (pure_fn (λ _, true))).
  reflexivity.
Defined.

(** ** [take] and [replace] together *)

(** X15: what [replace] puts in, [take] takes out.  After
    [a = x.replace(p)] and [b = x.take()], [a] holds the payload [x] had
    before, [b] holds [p], [x] is a [None], and [a], [b] and [x] are three
    different containers. *)
Theorem replace_then_take (σ : State) (this : loc) (old p : value) :
  heap σ !! this = Some old →
  ∃ a b σ',
    (a <- Option.replace this p;; b <- Option.take this;; ret (a, b)) σ
      = (Normal (a, b), σ') ∧
    heap σ' !! a = Some old ∧ heap σ' !! b = Some p ∧ holds_None σ' this ∧
    a ≠ b ∧ a ≠ this ∧ b ≠ this.
Proof.
  intros H.
  destruct (exchange_spec σ this old p H)
    as (a & σ1 & Hrun1 & Hne1 & _ & Ha & Hthis1 & _ & _).
  destruct (exchange_spec σ1 this p VUndefined Hthis1)
    as (b & σ2 & Hrun2 & Hne2 & Hfresh & Hb & Hthis2 & Hframe & _).
  assert (Hab : a ≠ b) by (intros ->; congruence).
  exists a, b, σ2.
  split; [|split; [|split; [exact Hb|split; [exact Hthis2|by repeat split]]]].
  - unfold Option.replace, Option.take. run_with Hrun1. run_with Hrun2.
    reflexivity.
  - by rewrite Hframe.
Qed.

Lemma replace_then_take_witness :
  ∃ a b σ',
    (a <- Option.replace 1%positive (VNumber 2);;
     b <- Option.take 1%positive;; ret (a, b)) st_some1 = (Normal (a, b), σ') ∧
    heap σ' !! a = Some (VNumber 1) ∧ heap σ' !! b = Some (VNumber 2) ∧
    holds_None σ' 1%positive ∧ a ≠ b ∧ a ≠ 1%positive ∧ b ≠ 1%positive.
Proof.
  apply (replace_then_take st_some1 1%positive (VNumber 1) (VNumber 2)).
  reflexivity.
Defined.

(** X16: the mutating methods without a callback assign one slot only.
    [take], [replace] and [getOrInsert] return normally on every container,
    and afterwards every other container has the payload it had, the
    receiver is still a container, and the record of calls is the same. *)
Theorem mutators_touch_only_receiver
    (σ : State) (this : loc) (old p : value) :
  heap σ !! this = Some old →
  (∃ r σ', Option.take this σ = (Normal r, σ') ∧ keeps_but this σ σ') ∧
  (∃ r σ', Option.replace this p σ = (Normal r, σ') ∧ keeps_but this σ σ') ∧
  (∃ r σ', Option.getOrInsert this p σ = (Normal r, σ') ∧ keeps_but this σ σ').
Proof.
  intros H.
  assert (Hex : ∀ v, ∃ r σ',
            (x <- read this;; write this v;; Option.from x) σ = (Normal r, σ') ∧
            keeps_but this σ σ').
  { intros v.
    destruct (exchange_spec σ this old v H)
      as (r & σ' & Hrun & _ & Hfresh & _ & Hthis & Hframe & Hcalls).
    exists r, σ'. split; [exact Hrun|].
    split; [|split; [by exists v|exact Hcalls]].
    intros o w Ho Hw. rewrite Hframe; [exact Hw| |exact Ho].
    intros ->. congruence. }
  split; [apply (Hex VUndefined)|]. split; [apply (Hex p)|].
  destruct (container_cases _ _ _ H) as [Ha|[-> Ha]].
  - exists this, σ. split.
    + unfold Option.getOrInsert. by run_with (holds_Some_isSome _ _ _ Ha).
    + split; [done|]. split; [by exists old|done].
  - exists this, (mkState (<[this := p]> (heap σ)) (calls σ)). split.
    + unfold Option.getOrInsert. run_with (holds_None_isSome _ _ Ha).
      by run_with (write_slot _ _ _ p Ha).
    + split; [|split; [exists p; apply lookup_insert_eq|done]].
      intros o w Ho Hw. simpl. by rewrite lookup_insert_ne.
Qed.

Lemma mutators_touch_only_receiver_witness :
  (∃ r σ', Option.take 1%positive st_some_none = (Normal r, σ') ∧
           keeps_but 1%positive st_some_none σ') ∧
  (∃ r σ', Option.replace 1%positive (VNumber 2) st_some_none = (Normal r, σ') ∧
           keeps_but 1%positive st_some_none σ') ∧
  (∃ r σ', Option.getOrInsert 1%positive (VNumber 2) st_some_none = (Normal r, σ') ∧
           keeps_but 1%positive st_some_none σ').
Proof.
  apply (mutators_touch_only_receiver st_some_none 1%positive
           (VNumber 1) (VNumber 2)).
  reflexivity.
Defined.

(** ** What the other methods leave alone *)

Lemma returns_keeping_same {A} (c : M A) σ a :
  c σ = (Normal a, σ) → returns_keeping c σ.
Proof. intros H. exists a, σ. split; [exact H | apply keeps_refl]. Qed.

Lemma returns_keeping_None σ : returns_keeping Option.None σ.
Proof.
  destruct (new_keeps σ VUndefined) as (o & σ' & Hnew & _ & _ & Hk).
  by exists o, σ'.
Qed.

(** X17: the queries and the combinators without a callback assign nothing.
    On existing containers [isSome], [isNone], [unwrapOr], [okOr], [and],
    [or] and [xor] return normally, and afterwards every container has the
    payload it had and the record of calls is the same; [expect] and
    [unwrap], whether they return or throw, leave the state exactly as it
    was. *)
Theorem combinators_keep_state
    (σ : State) (this b : loc) (p q fallback : value) (msg : string)
    (c : option value) :
  heap σ !! this = Some p → heap σ !! b = Some q →
  returns_keeping (Option.isSome this) σ ∧
  returns_keeping (Option.isNone this) σ ∧
  returns_keeping (Option.unwrapOr this fallback) σ ∧
  returns_keeping (Option.okOr this msg c) σ ∧
  returns_keeping (Option.and this b) σ ∧
  returns_keeping (Option.or this b) σ ∧
  returns_keeping (Option.xor this b) σ ∧
  (Option.expect this msg σ).2 = σ ∧
  (Option.unwrap this σ).2 = σ.
Proof.
  intros Hp Hq.
  split; [apply (returns_keeping_same _ _ _ (isSome_slot _ _ _ Hp))|].
  split; [apply (returns_keeping_same _ _ _ (isNone_slot _ _ _ Hp))|].
  split; [|split; [|split; [|split; [|split; [|split]]]]].
  - unfold Option.unwrapOr.
    destruct (typeof p =? "undefined")%string eqn:E;
      [apply (returns_keeping_same _ _ fallback)
      |apply (returns_keeping_same _ _ p)];
      run_with (read_slot _ _ _ Hp); by rewrite E.
  - destruct (container_cases _ _ _ Hp) as [Ha|[-> Ha]].
    + apply (returns_keeping_same _ _ _ (okOr_Some _ _ _ msg c Ha)).
    + apply (returns_keeping_same _ _ _ (okOr_None _ _ msg c Ha)).
  - destruct (container_cases _ _ _ Hp) as [Ha|[-> Ha]];
      [destruct (container_cases _ _ _ Hq) as [Hb|[-> Hb]]|].
    + apply (returns_keeping_same _ _ _ (and_both_Some _ _ _ _ _ Ha Hb)).
    + unfold returns_keeping. rewrite (and_b_None _ _ _ _ Ha Hb).
      apply returns_keeping_None.
    + unfold returns_keeping. rewrite (and_this_None _ _ b Ha).
      apply returns_keeping_None.
  - unfold Option.or.
    destruct (typeof p =? "undefined")%string eqn:E;
      [apply (returns_keeping_same _ _ b)|apply (returns_keeping_same _ _ this)];
      run_with (isSome_slot _ _ _ Hp); by rewrite E.
  - destruct (container_cases _ _ _ Hp) as [Ha|[-> Ha]];
      destruct (container_cases _ _ _ Hq) as [Hb|[-> Hb]].
    + unfold returns_keeping. rewrite (xor_both_Some _ _ _ _ _ Ha Hb).
      apply returns_keeping_None.
    + apply (returns_keeping_same _ _ _ (xor_this _ _ _ _ Ha Hb)).
    + apply (returns_keeping_same _ _ _ (xor_b _ _ _ _ Ha Hb)).
    + unfold returns_keeping. rewrite (xor_both_None _ _ _ Ha Hb).
      apply returns_keeping_None.
  - unfold Option.expect. run_with (read_slot _ _ _ Hp).
    by destruct (typeof p =? "undefined")%string.
  - unfold Option.unwrap. run_with (read_slot _ _ _ Hp).
    by destruct (typeof p =? "undefined")%string.
Qed.

Lemma combinators_keep_state_witness :
  returns_keeping (Option.isSome 1%positive) st_some_none ∧
  returns_keeping (Option.isNone 1%positive) st_some_none ∧
  returns_keeping (Option.unwrapOr 1%positive (VNumber 2)) st_some_none ∧
  returns_keeping (Option.okOr 1%positive "msg" None) st_some_none ∧
  returns_keeping (Option.and 1%positive 2%positive) st_some_none ∧
  returns_keeping (Option.or 1%positive 2%positive) st_some_none ∧
  returns_keeping (Option.xor 1%positive 2%positive) st_some_none ∧
  (Option.expect 1%positive "msg" st_some_none).2 = st_some_none ∧
  (Option.unwrap 1%positive st_some_none).2 = st_some_none.
Proof.
  apply (combinators_keep_state st_some_none 1%positive 2%positive
           (VNumber 1) VUndefined (VNumber 2) "msg" None); reflexivity.
Defined.

(** ** [okOr] and [transpose] with the outcome's own queries *)

(** X18: the outcome [okOr] returns answers [isOk()] as the receiver
    answers [isSome()], and [isErr()] as the receiver answers [isNone()],
    whatever the message and the code. *)
Theorem okOr_isOk_as_isSome
    (σ : State) (this : loc) (msg : string) (c : option value) :
  (r <- Option.okOr this msg c;; Result.isOk r) σ = Option.isSome this σ ∧
  (r <- Option.okOr this msg c;; Result.isErr r) σ = Option.isNone this σ.
Proof.
  unfold Option.okOr, Option.isSome, Option.isNone.
  rewrite !bind_assoc. unfold bind, read.
  destruct (heap σ !! this) as [p|]; [|by split].
  by destruct (typeof p =? "undefined")%string.
Qed.




(** X20: an option turned into an outcome by [okOr], wrapped in [Some] and
    transposed comes back, as long as the rest of the program assigns no
    container while the promise is pending: from a [Some(p)] the promise
    resolves to a success outcome wrapping a new [Some(p)], and from a
    [None] it resolves to the failure outcome built from the message.  The
    containers of the start state are kept. *)
Theorem okOr_then_transpose
    (pending : State → State) (σ : State) (this : loc) (msg : string)
    (c : option value) :
  (∀ σ0, keeps σ0 (pending σ0)) →
  (∀ p, holds_Some σ this p →
     ∃ o σ',
       (x <- Option.okOr this msg c;; w <- Option.Some (VResult x);;
        Option.transpose pending w) σ
         = (Normal (Result.Ok (VOption o)), σ') ∧
       heap σ !! o = None ∧ holds_Some σ' o p ∧ keeps σ σ') ∧
  (holds_None σ this →
     ∃ σ',
       (x <- Option.okOr this msg c;; w <- Option.Some (VResult x);;
        Option.transpose pending w) σ = (Normal (Result.Err msg None), σ') ∧
       keeps σ σ').
Proof.
  intros Hpending.
  assert (Hq : ∀ w, leaves_alone pending w).
  { intros w σ0 v Hv. by apply (Hpending σ0). }
  split.
  - intros p Hp.
    destruct (new_keeps σ (VResult (Result.Ok p)))
      as (w & σw & Hneww & _ & Hw & Hkw).
    pose proof (keeps_trans _ _ _ Hkw
                  (keeps_trans _ _ _ (Hpending σw)
                     (keeps_trans _ _ _ (Hpending (pending σw))
                        (Hpending (pending (pending σw)))))) as Hk3.
    destruct (new_keeps (pending (pending (pending σw))) p)
      as (o & σ' & Hnew & Hfresh & Ho & Hk).
    exists o, σ'. split; [|split; [|split]].
    + run_with (okOr_Some _ _ _ msg c Hp). unfold Option.Some.
      run_with Hneww. rewrite (transpose_Ok _ _ _ _ (Hq w) Hw).
      unfold Option.from. by run_with Hnew.
    + destruct (heap σ !! o) as [v|] eqn:E; [|reflexivity].
      destruct Hk3 as [Hk3 _]. apply Hk3 in E. congruence.
    + destruct Hp as [_ Hp]. by split.
    + exact (keeps_trans _ _ _ Hk3 Hk).
  - intros H.
    destruct (new_keeps σ (VResult (Result.Err msg None)))
      as (w & σw & Hneww & _ & Hw & Hkw).
    exists (pending (pending σw)). split.
    + run_with (okOr_None _ _ msg c H). unfold Option.Some.
      run_with Hneww. apply (transpose_Err _ _ _ _ _ (Hq w) Hw).
    + exact (keeps_trans _ _ _ Hkw
               (keeps_trans _ _ _ (Hpending σw) (Hpending (pending σw)))).
Qed.

Lemma okOr_then_transpose_witness :
  (∃ o σ',
     (x <- Option.okOr 1%positive "msg" None;; w <- Option.Some (VResult x);;
      Option.transpose id w) st_some1 = (Normal (Result.Ok (VOption o)), σ') ∧
     heap st_some1 !! o = None ∧ holds_Some σ' o (VNumber 1) ∧
     keeps st_some1 σ') ∧
  (∃ σ',
     (x <- Option.okOr 1%positive "msg" None;; w <- Option.Some (VResult x);;
      Option.transpose id w) st_none = (Normal (Result.Err "msg" None), σ') ∧
     keeps st_none σ').
Proof.
  split.
  - apply (okOr_then_transpose id st_some1 1%positive "msg" None);
      [intros σ0; apply keeps_refl | split; [reflexivity | discriminate]].
  - apply (okOr_then_transpose id st_none 1%positive "msg" None);
      [intros σ0; apply keeps_refl | reflexivity].
Defined.

(** ** Copies, aliases and errors of callbacks *)

(** X21: on a [Some(p)], [filter] with a predicate that holds returns a copy
    and [or] returns the receiver.  Taking the payload out of the copy
    leaves the receiver a [Some(p)]; taking it out of what [or] returned
    empties the receiver.  In both cases [take] returns a [Some(p)]. *)
Theorem filter_copies_or_aliases (σ : State) (this b : loc) (p : value) :
  holds_Some σ this p →
  (∃ t σ',
     (r <- Option.filter this (pure_fn (λ _, true));; Option.take r) σ
       = (Normal t, σ') ∧
     holds_Some σ' t p ∧ holds_Some σ' this p) ∧
  (∃ t σ',
     (r <- Option.or this b;; Option.take r) σ = (Normal t, σ') ∧
     holds_Some σ' t p ∧ holds_None σ' this).
Proof.
  intros Hp. pose proof Hp as [H Hdef]. split.
  - destruct (new_keeps σ p) as (r & σ1 & Hnew & Hfresh & Hr & Hk).
    assert (Hrt : r ≠ this) by (intros ->; congruence).
    assert (Hf : Option.filter this (pure_fn (λ _, true)) σ = (Normal r, σ1)).
    { unfold Option.filter. run_with (holds_Some_isNone _ _ _ Hp).
      run_with (read_slot _ _ _ H). unfold pure_fn. rewrite bind_ret.
      by run_with (read_slot _ _ _ H). }
    destruct (exchange_spec σ1 r p VUndefined Hr)
      as (t & σ' & Hrun & _ & Hfresh_t & Ht & _ & Hframe & _).
    destruct Hk as [Hk _]. apply Hk in H.
    exists t, σ'. split; [run_with Hf; exact Hrun|].
    split; [by split|]. split; [|exact Hdef].
    rewrite Hframe; [exact H| |by apply not_eq_sym].
    intros ->. congruence.
  - destruct (exchange_spec σ this p VUndefined H)
      as (t & σ' & Hrun & _ & _ & Ht & Hthis & _ & _).
    exists t, σ'. split; [|split; [by split|exact Hthis]].
    unfold Option.or. rewrite bind_assoc.
    run_with (holds_Some_isSome _ _ _ Hp). rewrite bind_ret. exact Hrun.
Qed.

Lemma filter_copies_or_aliases_witness :
  (∃ t σ',
     (r <- Option.filter 1%positive (pure_fn (λ _, true));; Option.take r) st_some_none
       = (Normal t, σ') ∧
     holds_Some σ' t (VNumber 1) ∧ holds_Some σ' 1%positive (VNumber 1)) ∧
  (∃ t σ',
     (r <- Option.or 1%positive 2%positive;; Option.take r) st_some_none
       = (Normal t, σ') ∧
     holds_Some σ' t (VNumber 1) ∧ holds_None σ' 1%positive).
Proof.
  apply (filter_copies_or_aliases st_some_none 1%positive 2%positive (VNumber 1)).
  split; [reflexivity | discriminate].
Defined.

(** X22: an error thrown by a callback is thrown by the method, with the
    state the callback left; the method builds nothing and assigns nothing
    after it.  This holds for [map], [mapOr], [andThen] and [filter] on a
    [Some(p)] whose callback throws on [p]. *)
Theorem callback_errors_propagate
    (σ σ1 : State) (this : loc) (p fallback : value) (e : JsError)
    (fn : value → M value) (step : value → M loc) (keep : value → M bool) :
  holds_Some σ this p →
  (fn p σ = (Throw e, σ1) →
     Option.map this fn σ = (Throw e, σ1) ∧
     Option.mapOr this fallback fn σ = (Throw e, σ1)) ∧
  (step p σ = (Throw e, σ1) → Option.andThen this step σ = (Throw e, σ1)) ∧
  (keep p σ = (Throw e, σ1) → Option.filter this keep σ = (Throw e, σ1)).
Proof.
  intros Hp. pose proof Hp as [H Hdef]. split; [|split].
  - intros Hfn. unfold Option.map, Option.mapOr.
    repeat run_with (read_slot _ _ _ H). rewrite (typeof_defined _ Hdef).
    simpl. unfold bind. by rewrite Hfn.
  - intros Hfn. by rewrite (andThen_Some _ _ _ _ Hp).
  - intros Hfn. unfold Option.filter. run_with (holds_Some_isNone _ _ _ Hp).
    run_with (read_slot _ _ _ H). unfold bind. by rewrite Hfn.
Qed.

Lemma callback_errors_propagate_witness :
  (Option.map 1%positive (λ _, throw (Error "boom")) st_some1
     = (Throw (Error "boom"), st_some1) ∧
   Option.mapOr 1%positive (VNumber 2) (λ _, throw (Error "boom")) st_some1
     = (Throw (Error "boom"), st_some1)) ∧
  Option.andThen 1%positive (λ _, throw (Error "boom")) st_some1
    = (Throw (Error "boom"), st_some1) ∧
  Option.filter 1%positive (λ _, throw (Error "boom")) st_some1
    = (Throw (Error "boom"), st_some1).
Proof.
  split; [|split].
  - apply (callback_errors_propagate st_some1 st_some1 1%positive (VNumber 1)
             (VNumber 2) (Error "boom") (λ _, throw (Error "boom"))
             (λ _, throw (Error "boom")) (λ _, throw (Error "boom")));
      [split; [reflexivity | discriminate] | reflexivity].
  - apply (callback_errors_propagate st_some1 st_some1 1%positive (VNumber 1)
             (VNumber 2) (Error "boom") (λ _, throw (Error "boom"))
             (λ _, throw (Error "boom")) (λ _, throw (Error "boom")));
      [split; [reflexivity | discriminate] | reflexivity].
  - apply (callback_errors_propagate st_some1 st_some1 1%positive (VNumber 1)
             (VNumber 2) (Error "boom") (λ _, throw (Error "boom"))
             (λ _, throw (Error "boom")) (λ _, throw (Error "boom")));
      [split; [reflexivity | discriminate] | reflexivity].
Defined.
